(** * The NachOS file system (filesys.cc, filehdr.cc): model and properties

    The development embeds the file header (i-node) routines of filehdr.cc
    and the path-walking operations of filesys.cc as functions over an
    explicit disk, and states what they do on it.

    Conventions.
    - C++ [int] values are [Z].  The code computes on sizes and sector
      numbers with signed integers, whose overflow C++ leaves undefined; the
      model computes on unbounded integers.
    - An operation is a function from the disk to an [outcome]: it returns a
      value, stops on a failed [ASSERT], or runs into behaviour C++ leaves
      undefined.  The disk an outcome carries is what the sectors hold at
      that moment (sector writes are synchronous).
    - Objects the code builds with [new] and passes by pointer (the free map,
      a directory, a header) are values threaded through the calls.  Releasing
      storage is outside the model: [delete] has no counterpart, also where
      the code applies it to a pointer it never assigned. *)

From stdpp Require Import gmap strings list.
From Stdlib Require Import ZArith Lia Ascii.

Open Scope Z_scope.

(** ** Outcomes *)

Inductive outcome (S A : Type) : Type :=
| Ret (a : A) (s : S)      (* normal return *)
| Abort (s : S)            (* an ASSERT failed: the kernel stops *)
| Undefined (s : S)        (* undefined behaviour, or bytes the model does not track *)
| OutOfFuel (s : S).       (* recursion bound of the model reached *)

Arguments Ret {S A} a s.
Arguments Abort {S A} s.
Arguments Undefined {S A} s.
Arguments OutOfFuel {S A} s.

Definition bind {S A B} (m : S -> outcome S A) (k : A -> S -> outcome S B)
  : S -> outcome S B :=
  fun s => match m s with
           | Ret a s' => k a s'
           | Abort s' => Abort s'
           | Undefined s' => Undefined s'
           | OutOfFuel s' => OutOfFuel s'
           end.

Notation "'do' x <- m ; k" := (bind m (fun x => k))
  (at level 10, x pattern, m at level 100, k at level 200,
   format "'[v' 'do'  x  <-  m ; '/' k ']'").

Definition returns {S A} (o : outcome S A) : Prop :=
  match o with Ret _ _ => True | _ => False end.

Definition ret {S A} (a : A) : S -> outcome S A := fun s => Ret a s.
Definition undefined {S A} : S -> outcome S A := fun s => Undefined s.
Definition outOfFuel {S A} : S -> outcome S A := fun s => OutOfFuel s.
Definition abort {S A} : S -> outcome S A := fun s => Abort s.

(** Modelled from the spec: the macro [ASSERT(c)] of debug.h, which is not
    among the sources: a condition that does not hold is fatal. *)
Definition ASSERT {S} (c : bool) : S -> outcome S unit :=
  fun s => if c then Ret tt s else Abort s.

(** Modelled from the spec: utility.h is not among the sources; the macro
    divRoundDown on C integers (division truncates toward zero). *)
Definition divRoundDown (n s : Z) : Z := Z.quot n s.

(** Modelled from the spec: utility.h is not among the sources; the macro
    divRoundUp, which gives [ceil(size / sectorSize)] on sizes that are not
    negative. *)
Definition divRoundUp (n s : Z) : Z := Z.quot (n + s - 1) s.

(** ** The free-sector bitmap *)

(** Modelled from the spec: bitmap.cc and pbitmap.cc are not among the
    sources.  A bitmap is a bit vector, [true] = allocated.  [Mark], [Clear]
    and [Test] check that the sector is in range and nothing else; an index
    out of range fails that check ([None] here, an assertion failure at the
    call site).  [FindAndSet] takes the lowest clear bit, or answers -1. *)
Module Bitmap.

Abbreviation t := (list bool).

(** Modelled from the spec: the constructor Bitmap(numBits) of bitmap.cc,
    every bit clear. *)
Definition create (numBits : Z) : t := replicate (Z.to_nat numBits) false.

(** Modelled from the spec: the range check of bitmap.cc on a bit index. *)
Definition inRange (which : Z) (b : t) : bool :=
  (0 <=? which) && (which <? Z.of_nat (length b)).

(** Modelled from the spec: Bitmap::Mark of bitmap.cc, [mark(sector)]. *)
Definition Mark (which : Z) (b : t) : option t :=
  if inRange which b then Some (<[Z.to_nat which := true]> b) else None.

(** Modelled from the spec: Bitmap::Clear of bitmap.cc, [clear(sector)]. *)
Definition Clear (which : Z) (b : t) : option t :=
  if inRange which b then Some (<[Z.to_nat which := false]> b) else None.

(** Modelled from the spec: Bitmap::Test of bitmap.cc, [test(sector)]. *)
Definition Test (which : Z) (b : t) : option bool :=
  if inRange which b then b !! Z.to_nat which else None.

(** Modelled from the spec: Bitmap::NumClear of bitmap.cc, [countClear()],
    the number of clear bits. *)
Fixpoint NumClear (b : t) : Z :=
  match b with
  | [] => 0
  | x :: b' => (if x then 0 else 1) + NumClear b'
  end.

(** Modelled from the spec: the scan of Bitmap::FindAndSet of bitmap.cc, the
    index of the lowest clear bit at or after position [i], or -1. *)
Fixpoint findClear (i : Z) (b : t) : Z :=
  match b with
  | [] => -1
  | x :: b' => if x then findClear (i + 1) b' else i
  end.

(** Modelled from the spec: Bitmap::FindAndSet of bitmap.cc,
    [findAndSet()]: the lowest clear bit is set and returned, -1 stands for
    "none". *)
Definition FindAndSet (b : t) : Z * t :=
  let i := findClear 0 b in
  if i =? -1 then (-1, b) else (i, <[Z.to_nat i := true]> b).

End Bitmap.

(** ** Directories *)

(** Modelled from the spec: directory.h is not among the sources.  An
    entry of a directory table; filesys.cc reads the fields [inUse], [isDir]
    and [name] of [directory->table[i]]. *)
Record DirectoryEntry := {
  inUse : bool;
  isDir : bool;
  sector : Z;
  name : string
}.

Abbreviation Directory := (list DirectoryEntry).

(** Modelled from the spec: directory.cc is not among the sources.  A
    directory is a table of fixed capacity; [Find] scans for an in-use entry
    of that name and answers its header sector or -1; [Add] fails when the
    name is present or no slot is free and otherwise takes the first free
    slot; [Remove] clears the matching entry.  Names are compared as whole
    strings. *)
Module Dir.

(** Modelled from the spec: an entry of a table fresh from the constructor
    of directory.cc, not in use. *)
Definition blank : DirectoryEntry :=
  {| inUse := false; isDir := false; sector := 0; name := "" |}.

(** Modelled from the spec: the constructor Directory(size) of
    directory.cc, a table of [size] entries none of which is in use. *)
Definition create (size : Z) : Directory := replicate (Z.to_nat size) blank.

(** Modelled from the spec: the test of Directory::FindIndex of
    directory.cc, an in-use entry with matching name. *)
Definition matches (nm : string) (e : DirectoryEntry) : bool :=
  inUse e && bool_decide (name e = nm).

(** Modelled from the spec: Directory::FindIndex of directory.cc, the
    linear scan; [i] is the index of the head of [table]. *)
Fixpoint FindIndex (table : Directory) (nm : string) (i : nat) : option nat :=
  match table with
  | [] => None
  | e :: table' => if matches nm e then Some i else FindIndex table' nm (S i)
  end.

(** Modelled from the spec: Directory::Find of directory.cc, [find(name)]:
    the header sector of the entry found, -1 for "none". *)
Definition Find (table : Directory) (nm : string) : Z :=
  match FindIndex table nm 0 with
  | Some i => match table !! i with Some e => sector e | None => -1 end
  | None => -1
  end.

(** Modelled from the spec: the search of Directory::Add of directory.cc
    for the first slot not in use. *)
Fixpoint freeSlot (table : Directory) (i : nat) : option nat :=
  match table with
  | [] => None
  | e :: table' => if inUse e then freeSlot table' (S i) else Some i
  end.

(** Modelled from the spec: [add(name, sector, isDirectory)] of
    directory.cc: fails if the name is present or no slot is free, otherwise
    occupies the first free slot. *)
Definition addEntry (dir : bool) (table : Directory) (nm : string) (newSector : Z)
  : bool * Directory :=
  match FindIndex table nm 0 with
  | Some _ => (false, table)
  | None =>
      match freeSlot table 0 with
      | Some i => (true, <[i := {| inUse := true; isDir := dir;
                                    sector := newSector; name := nm |}]> table)
      | None => (false, table)
      end
  end.

(** Modelled from the spec: Directory::Add of directory.cc, which files a
    plain file. *)
Definition Add := addEntry false.

(** Modelled from the spec: Directory::AddDir of directory.cc, which files
    a directory. *)
Definition AddDir := addEntry true.

(** Modelled from the spec: Directory::Remove of directory.cc,
    [remove(name)]: the matching entry is marked not in use. *)
Definition Remove (table : Directory) (nm : string) : bool * Directory :=
  match FindIndex table nm 0 with
  | Some i =>
      match table !! i with
      | Some e => (true, <[i := {| inUse := false; isDir := isDir e;
                                    sector := sector e; name := name e |}]> table)
      | None => (false, table)
      end
  | None => (false, table)
  end.

(** the in-use entries, in table order, and their names *)
Definition entries (table : Directory) : list DirectoryEntry :=
  filter (fun e => inUse e = true) table.

Definition names (table : Directory) : list string := name <$> entries table.

End Dir.

(** ** File headers and the disk *)

Record FileHeader := {
  numBytes : Z;
  numSectors : Z;
  dataSectors : list Z
}.

(** Modelled from the spec: openfile.cc is not among the sources.  What a
    file holds, seen through an [OpenFile] on its header sector: the bytes
    of a file are kept as the structure last written to it. *)
Inductive FileImage :=
| BitmapImage (b : Bitmap.t)
| TableImage (t : Directory).

Record Disk := {
  headers : gmap Z FileHeader;   (* sector -> header written there by WriteBack *)
  images : gmap Z FileImage      (* header sector of a file -> content of the file *)
}.

Definition blankDisk : Disk := {| headers := ∅; images := ∅ |}.

(** A pointer to an [OpenFile] (openfile.h is not among the sources; an
    open file is known by the sector of its header). *)
Inductive OpenFilePtr :=
| NULL
| Wild (bits : Z)            (* value of a pointer variable never assigned *)
| OpenFile (sector : Z).     (* new OpenFile(sector) *)

Definition isNull (p : OpenFilePtr) : bool :=
  match p with
  | NULL => true
  | Wild bits => bits =? 0
  | OpenFile _ => false
  end.

(** Constants of headers that are not among the sources (disk.h, filehdr.h,
    bitmap.h, directory.h), taken as parameters, and the table a [Directory]
    ends up with when it is fetched from a file that holds no directory:
    [rawTable sec table] for the file with header sector [sec], read over
    the table [table]. *)
Class Platform := {
  SectorSize : Z;
  NumSectors : Z;
  NumDirect : Z;
  MaxFileSize : Z;
  MaxFileSize2 : Z;
  MaxFileSize3 : Z;
  BitsInByte : Z;
  sizeofDirectoryEntry : Z;
  rawTable : Z -> Directory -> Directory
}.

Definition M (A : Type) : Type := Disk -> outcome Disk A.


Section FileHdr.
Context {P : Platform}.

(** FileHeader::FileHeader *)
Definition FileHeader_new : FileHeader :=
  {| numBytes := -1; numSectors := -1;
     dataSectors := replicate (Z.to_nat NumDirect) (-1) |}.

(** FileHeader::WriteBack *)
Definition FileHeader_WriteBack (h : FileHeader) (sec : Z) : M unit :=
  fun d => Ret tt {| headers := <[sec := h]> (headers d); images := images d |}.

(** FileHeader::FetchFrom; a sector that holds no header yields bytes the
    model does not track *)
Definition FileHeader_FetchFrom (sec : Z) : M FileHeader :=
  fun d => match headers d !! sec with
           | Some h => Ret h d
           | None => Undefined d
           end.

(** [dataSectors[i] = v] *)
Definition storeSector (h : FileHeader) (i v : Z) : M FileHeader :=
  if (0 <=? i) && (i <? Z.of_nat (length (dataSectors h))) then
    ret {| numBytes := numBytes h; numSectors := numSectors h;
           dataSectors := <[Z.to_nat i := v]> (dataSectors h) |}
  else undefined.

(** [dataSectors[i]] *)
Definition loadSector (h : FileHeader) (i : Z) : M Z :=
  if 0 <=? i then
    match dataSectors h !! Z.to_nat i with
    | Some v => ret v
    | None => undefined
    end
  else undefined.

(** The three [while (fileSize > 0)] loops of FileHeader::Allocate, which
    differ in the chunk size only.  [slots] counts the entries of
    [dataSectors] from [i] on: with none left the store is out of
    bounds. *)
Fixpoint Allocate_children
    (alloc : Bitmap.t -> Z -> M (bool * FileHeader * Bitmap.t))
    (chunk : Z) (slots : nat) (i : Z) (fileSize : Z)
    (h : FileHeader) (freeMap : Bitmap.t) : M (FileHeader * Bitmap.t) :=
  if fileSize >? 0 then
    match slots with
    | O => undefined
    | S slots' =>
        let '(s, freeMap) := Bitmap.FindAndSet freeMap in
        do h <- storeSector h i s;
        do _ <- ASSERT (s >=? 0);
        do (ok, next, freeMap) <-
           alloc freeMap (if fileSize >? chunk then chunk else fileSize);
        do _ <- ASSERT ok;
        do _ <- FileHeader_WriteBack next s;
        Allocate_children alloc chunk slots' (i + 1) (fileSize - chunk) h freeMap
    end
  else ret (h, freeMap).

(** The [for] loop of the direct case. *)
Fixpoint Allocate_direct (n : nat) (i : Z) (h : FileHeader) (freeMap : Bitmap.t)
  : M (FileHeader * Bitmap.t) :=
  match n with
  | O => ret (h, freeMap)
  | S n' =>
      let '(s, freeMap) := Bitmap.FindAndSet freeMap in
      do h <- storeSector h i s;
      do _ <- ASSERT (s >=? 0);
      Allocate_direct n' (i + 1) h freeMap
  end.

(** FileHeader::Allocate, on a header fresh from [new FileHeader].  The
    result is the return value, the header and the free map as the call
    leaves them. *)
Fixpoint Allocate (fuel : nat) (freeMap : Bitmap.t) (fileSize : Z)
  : M (bool * FileHeader * Bitmap.t) :=
  match fuel with
  | O => outOfFuel
  | S fuel' =>
      let h := {| numBytes := fileSize;
                  numSectors := divRoundUp fileSize SectorSize;
                  dataSectors := dataSectors FileHeader_new |} in
      let slots := length (dataSectors h) in
      if Bitmap.NumClear freeMap <? numSectors h then ret (false, h, freeMap)
      else if fileSize >? MaxFileSize3 then
        do (h, freeMap) <-
           Allocate_children (Allocate fuel') MaxFileSize3 slots 0 fileSize h freeMap;
        ret (true, h, freeMap)
      else if fileSize >? MaxFileSize2 then
        do (h, freeMap) <-
           Allocate_children (Allocate fuel') MaxFileSize2 slots 0 fileSize h freeMap;
        ret (true, h, freeMap)
      else if fileSize >? MaxFileSize then
        do (h, freeMap) <-
           Allocate_children (Allocate fuel') MaxFileSize slots 0 fileSize h freeMap;
        ret (true, h, freeMap)
      else
        do (h, freeMap) <-
           Allocate_direct (Z.to_nat (numSectors h)) 0 h freeMap;
        ret (true, h, freeMap)
  end.

(** FileHeader::Deallocate: one loop over [numSectors] entries of this
    header. *)
Fixpoint Deallocate_loop (n : nat) (i : Z) (h : FileHeader) (freeMap : Bitmap.t)
  : M Bitmap.t :=
  match n with
  | O => ret freeMap
  | S n' =>
      do s <- loadSector h i;
      do _ <- ASSERT (match Bitmap.Test s freeMap with Some b => b | None => false end);
      match Bitmap.Clear s freeMap with
      | Some freeMap' => Deallocate_loop n' (i + 1) h freeMap'
      | None => abort
      end
  end.

Definition Deallocate (h : FileHeader) (freeMap : Bitmap.t) : M Bitmap.t :=
  Deallocate_loop (Z.to_nat (numSectors h)) 0 h freeMap.

(** FileHeader::ByteToSector.  Only the last branch has a [return]: in the
    three others the value of the recursive call is dropped and control
    reaches the end of a function that must return an [int]. *)
Fixpoint ByteToSector (fuel : nat) (h : FileHeader) (offset : Z) : M Z :=
  match fuel with
  | O => outOfFuel
  | S fuel' =>
      let NumSector := Z.quot offset SectorSize in
      let viaChild (chunk : Z) : M Z :=
        let which := divRoundDown offset chunk in
        do s <- loadSector h which;
        do next <- FileHeader_FetchFrom s;
        do _ <- ByteToSector fuel' next (offset - which * chunk);
        undefined in
      if numBytes h >? MaxFileSize3 then viaChild MaxFileSize3
      else if numBytes h >? MaxFileSize2 then viaChild MaxFileSize2
      else if numBytes h >? MaxFileSize then viaChild MaxFileSize
      else loadSector h NumSector
  end.

End FileHdr.

(** ** The file system *)

(** The C library's [strtok(name, "/")] followed by [strtok(NULL, "/")]
    until it answers NULL: the maximal runs of characters other than the
    separator.  [tok] is the run being read. *)
Fixpoint strtok_from (tok : string) (s : string) : list string :=
  match s with
  | EmptyString => if bool_decide (tok = "") then [] else [tok]
  | String c s' =>
      if bool_decide (c = "/"%char) then
        if bool_decide (tok = "") then strtok_from "" s'
        else tok :: strtok_from "" s'
      else strtok_from (tok +:+ String c "") s'
  end.

Definition strtok (name : string) : list string := strtok_from "" name.

Section FileSys.
Context {P : Platform}.

Definition FreeMapSector : Z := 0.
Definition DirectorySector : Z := 1.
Definition FreeMapFileSize : Z := Z.quot NumSectors BitsInByte.
Definition NumDirEntries : Z := 64.
Definition DirectoryFileSize : Z := sizeofDirectoryEntry * NumDirEntries.

(** the two files the file system keeps open *)
Definition freeMapFile : OpenFilePtr := OpenFile FreeMapSector.
Definition directoryFile : OpenFilePtr := OpenFile DirectorySector.

(** Modelled from the spec: Directory::FetchFrom (directory.cc) through
    OpenFile::ReadAt (openfile.cc), neither among the sources: the table the
    file with header sector [sec] holds.  [table] is what the directory
    object held before the fetch. *)
Definition fetchTable (d : Disk) (table : Directory) (sec : Z) : Directory :=
  match images d !! sec with
  | Some (TableImage t) => t
  | _ => rawTable sec table
  end.

(** Modelled from the spec: Directory::FetchFrom(file) of directory.cc,
    [fetchFrom(file)]: the whole table is read from the content of the
    file. *)
Definition Directory_FetchFrom (table : Directory) (file : OpenFilePtr) : M Directory :=
  match file with
  | OpenFile sec => fun d => Ret (fetchTable d table sec) d
  | _ => undefined
  end.

(** Modelled from the spec: OpenFile::WriteAt of openfile.cc, as
    Directory::WriteBack and PersistentBitmap::WriteBack use it: the whole
    structure becomes the content of the file. *)
Definition writeImage (file : OpenFilePtr) (img : FileImage) : M unit :=
  match file with
  | OpenFile sec =>
      fun d => Ret tt {| headers := headers d; images := <[sec := img]> (images d) |}
  | _ => undefined
  end.

(** Modelled from the spec: Directory::WriteBack(file) of directory.cc,
    [writeBack(file)]. *)
Definition Directory_WriteBack (table : Directory) (file : OpenFilePtr) : M unit :=
  writeImage file (TableImage table).

(** Modelled from the spec: the constructor PersistentBitmap(file, numBits)
    of pbitmap.cc, [fetchFrom(file)]: the bit vector held by the file; a
    file that holds none yields bytes the model does not track. *)
Definition PersistentBitmap_new (file : OpenFilePtr) : M Bitmap.t :=
  match file with
  | OpenFile sec =>
      fun d => match images d !! sec with
               | Some (BitmapImage b) => Ret b d
               | _ => Undefined d
               end
  | _ => undefined
  end.

(** Modelled from the spec: PersistentBitmap::WriteBack(file) of
    pbitmap.cc, [writeBack(file)]. *)
Definition PersistentBitmap_WriteBack (b : Bitmap.t) (file : OpenFilePtr) : M unit :=
  writeImage file (BitmapImage b).

(** FileSystem::FileSystem(format = TRUE), on a disk that holds nothing *)
Definition FileSystem_format (fuel : nat) : M unit :=
  let freeMap := Bitmap.create NumSectors in
  let directory := Dir.create NumDirEntries in
  match Bitmap.Mark FreeMapSector freeMap with
  | None => abort
  | Some freeMap =>
      match Bitmap.Mark DirectorySector freeMap with
      | None => abort
      | Some freeMap =>
          do (ok, mapHdr, freeMap) <- Allocate fuel freeMap FreeMapFileSize;
          do _ <- ASSERT ok;
          do (ok, dirHdr, freeMap) <- Allocate fuel freeMap DirectoryFileSize;
          do _ <- ASSERT ok;
          do _ <- FileHeader_WriteBack mapHdr FreeMapSector;
          do _ <- FileHeader_WriteBack dirHdr DirectorySector;
          do _ <- PersistentBitmap_WriteBack freeMap freeMapFile;
          Directory_WriteBack directory directoryFile
      end
  end.

(** One turn of the loop of FileSystem::Create, for the component [pch].
    The result is [directory], [openFileDir] and [success] as the turn
    leaves them. *)
Definition Create_body (fuel : nat) (initialSize : Z) (count : Z) (pch : string)
    (directory : Directory) (openFileDir : OpenFilePtr)
  : M (Directory * OpenFilePtr * bool) :=
  if negb (Dir.Find directory pch =? -1) then
    let openFileDir := OpenFile (Dir.Find directory pch) in
    do directory <- Directory_FetchFrom directory openFileDir;
    ret (directory, openFileDir, false)
  else
    do freeMap <- PersistentBitmap_new freeMapFile;
    let '(sec, freeMap) := Bitmap.FindAndSet freeMap in
    if sec =? -1 then ret (directory, openFileDir, false)
    else
      let '(added, directory) := Dir.Add directory pch sec in
      if negb added then ret (directory, openFileDir, false)
      else
        do (ok, hdr, freeMap) <- Allocate fuel freeMap initialSize;
        if negb ok then ret (directory, openFileDir, false)
        else
          do _ <- FileHeader_WriteBack hdr sec;
          do _ <- (if count =? 0 then Directory_WriteBack directory directoryFile
                   else Directory_WriteBack directory openFileDir);
          do _ <- PersistentBitmap_WriteBack freeMap freeMapFile;
          ret (directory, openFileDir, true).

(** The loop [while (cntNull == 0)]: the body runs for [pch], then once
    for every further token. *)
Fixpoint Create_loop (fuel : nat) (initialSize : Z) (count : Z)
    (pch : string) (rest : list string)
    (directory : Directory) (openFileDir : OpenFilePtr) : M bool :=
  do (directory, openFileDir, success) <-
     Create_body fuel initialSize count pch directory openFileDir;
  match rest with
  | [] => ret success
  | pch' :: rest' =>
      Create_loop fuel initialSize (count + 1) pch' rest' directory openFileDir
  end.

(** FileSystem::Create.  [junk] is what the local [openFileDir] holds
    before anything is assigned to it.  With no token at all the body runs
    on a NULL name, which Find and Add read. *)
Definition Create (fuel : nat) (name : string) (initialSize : Z) (junk : Z) : M bool :=
  do directory <- Directory_FetchFrom (Dir.create NumDirEntries) directoryFile;
  match strtok name with
  | [] => undefined
  | pch :: rest =>
      Create_loop fuel initialSize 0 pch rest directory (Wild junk)
  end.

(** One turn of the loop of FileSystem::CreateDir. *)
Definition CreateDir_body (fuel : nat) (count : Z) (pch : string)
    (openFileDir : OpenFilePtr) : M (OpenFilePtr * bool) :=
  do directory <-
     (if count =? 0 then Directory_FetchFrom (Dir.create NumDirEntries) directoryFile
      else Directory_FetchFrom (Dir.create NumDirEntries) openFileDir);
  if negb (Dir.Find directory pch =? -1) then
    ret (OpenFile (Dir.Find directory pch), false)
  else
    do freeMap <- PersistentBitmap_new freeMapFile;
    let '(sec, freeMap) := Bitmap.FindAndSet freeMap in
    if sec =? -1 then ret (openFileDir, false)
    else
      let '(added, directory) := Dir.AddDir directory pch sec in
      if negb added then ret (openFileDir, false)
      else
        do (ok, hdr, freeMap) <- Allocate fuel freeMap DirectoryFileSize;
        if negb ok then ret (openFileDir, false)
        else
          do _ <- FileHeader_WriteBack hdr sec;
          do _ <- (if count =? 0 then Directory_WriteBack directory directoryFile
                   else Directory_WriteBack directory openFileDir);
          do _ <- PersistentBitmap_WriteBack freeMap freeMapFile;
          let newDir := Dir.create NumDirEntries in
          let openFileDir := OpenFile sec in
          do _ <- Directory_WriteBack newDir openFileDir;
          ret (openFileDir, true).

(** The loop [while (pch != NULL)] of CreateDir, over the tokens left. *)
Fixpoint CreateDir_loop (fuel : nat) (count : Z) (toks : list string)
    (openFileDir : OpenFilePtr) (success : bool) : M (OpenFilePtr * bool) :=
  match toks with
  | [] => ret (openFileDir, success)
  | pch :: toks' =>
      do (openFileDir, success) <- CreateDir_body fuel count pch openFileDir;
      CreateDir_loop fuel (count + 1) toks' openFileDir success
  end.

(** FileSystem::CreateDir.  [junk] and [junkSuccess] are what the locals
    [openFileDir] and [success] hold before anything is assigned. *)
Definition CreateDir (fuel : nat) (name : string) (junk : Z) (junkSuccess : bool)
  : M bool :=
  do (_, success) <- CreateDir_loop fuel 0 (strtok name) (Wild junk) junkSuccess;
  ret success.

(** The loop of FileSystem::Open.  It only reads the disk, and fetches a
    directory only through a pointer it has just made. *)
Fixpoint Open_loop (d : Disk) (toks : list string)
    (directory : Directory) (openFileDir : OpenFilePtr) : OpenFilePtr :=
  match toks with
  | [] => openFileDir
  | pch :: toks' =>
      let sec := Dir.Find directory pch in
      if sec >=? 0 then
        Open_loop d toks' (fetchTable d directory sec) (OpenFile sec)
      else Open_loop d toks' directory openFileDir
  end.

(** FileSystem::Open; the value is the pointer it returns. *)
Definition Open (d : Disk) (name : string) (junk : Z) : OpenFilePtr :=
  Open_loop d (strtok name)
    (fetchTable d (Dir.create NumDirEntries) DirectorySector) (Wild junk).

(** FileSystem::Remove *)
Definition Remove (name : string) : M bool :=
  do directory <- Directory_FetchFrom (Dir.create NumDirEntries) directoryFile;
  let sec := Dir.Find directory name in
  if sec =? -1 then ret false
  else
    do fileHdr <- FileHeader_FetchFrom sec;
    do freeMap <- PersistentBitmap_new freeMapFile;
    do freeMap <- Deallocate fileHdr freeMap;
    match Bitmap.Clear sec freeMap with
    | None => abort
    | Some freeMap =>
        let '(_, directory) := Dir.Remove directory name in
        do _ <- PersistentBitmap_WriteBack freeMap freeMapFile;
        do _ <- Directory_WriteBack directory directoryFile;
        ret true
    end.

End FileSys.

(** ** The table of open files *)

(** [OpenTable], the array of [OpenFile] pointers indexed by file id.  Its
    declaration (filesys.h) is not among the sources, so its length is
    whatever the list has; an index outside it is out of bounds. *)
Abbreviation OpenTable := (list OpenFilePtr).

Definition T (A : Type) : Type := OpenTable -> outcome OpenTable A.

Definition tableLoad (id : Z) : T OpenFilePtr :=
  fun t => if 0 <=? id then
             match t !! Z.to_nat id with
             | Some p => Ret p t
             | None => Undefined t
             end
           else Undefined t.

Definition tableStore (id : Z) (p : OpenFilePtr) : T unit :=
  fun t => if (0 <=? id) && (id <? Z.of_nat (length t)) then
             Ret tt (<[Z.to_nat id := p]> t)
           else Undefined t.

(** The loop [while (fd <= 20)] of FileSystem::OpenId; [n] bounds the turns
    left, 21 being enough from [fd = 0]. *)
Fixpoint OpenId_scan (n : nat) (fd : Z) (file : OpenFilePtr) : T Z :=
  if fd <=? 20 then
    match n with
    | O => outOfFuel
    | S n' =>
        let fd := fd + 1 in
        do p <- tableLoad fd;
        if isNull p then
          do _ <- tableStore fd file;
          ret fd
        else OpenId_scan n' fd file
    end
  else ret fd.




(** FileSystem::kclose *)
Definition kclose (id : Z) : T Z :=
  do file <- tableLoad id;
  if isNull file then ret 0
  else
    do _ <- tableStore id NULL;
    ret 1.

Section OpenById.
Context {P : Platform}.

(** FileSystem::OpenId, with the disk [d] that Open reads *)
Definition OpenId (d : Disk) (name : string) (junk : Z) : T Z :=
  let fd := 0 in
  let file := Open d name junk in
  do fd <- OpenId_scan 21 fd file;
  do _ <- ASSERT (fd <=? 20);
  ret fd.

End OpenById.

(** ** Listing and recursive removal *)

(** What the listing routines print, line by line. *)
Inductive Printed :=
| Listing (entries : list (string * bool))   (* Directory::List: names, with [true] for a directory *)
| InFile                                     (* "in file" *)
| InDir (name : string).                     (* "--In <name>--" *)

(** Modelled from the spec: Directory::List of directory.cc, [list()]: the
    in-use entries in table order, each with its name and kind. *)
Definition Directory_List (table : Directory) : list (string * bool) :=
  (fun e => (name e, isDir e)) <$> Dir.entries table.

(** [directory->table[i]], on the table of a directory object *)
Definition tableEntry (table : Directory) (i : nat) : M DirectoryEntry :=
  match table !! i with
  | Some e => ret e
  | None => undefined
  end.

(** the buffer [char name2[100]] takes [name] and its terminator *)
Definition fitsName2 (name : string) : bool := Z.of_nat (String.length name) <? 100.

Section ListRemove.
Context {P : Platform}.

(** FileHeader::FileLength *)
Definition FileLength (h : FileHeader) : Z := numBytes h.

(** The loop of FileSystem::List (and of the first part of RList): a
    component found with a sector above 0 is entered, any other is passed
    over. *)
Fixpoint List_loop (d : Disk) (toks : list string) (directory : Directory)
  : Directory :=
  match toks with
  | [] => directory
  | pch :: toks' =>
      if Dir.Find directory pch >? 0 then
        List_loop d toks' (fetchTable d directory (Dir.Find directory pch))
      else List_loop d toks' directory
  end.

(** FileSystem::List; the value is what it prints. *)
Definition List (d : Disk) (name : string) : list (string * bool) :=
  Directory_List
    (List_loop d (strtok name)
       (fetchTable d (Dir.create NumDirEntries) DirectorySector)).

(** The counting loop of RList over the 64 entries: [fileNum] and [total]
    ([count] is counted too but never read). *)
Fixpoint RList_count (n i : nat) (table : Directory) (fileNum total : Z)
  : M (Z * Z) :=
  match n with
  | O => ret (fileNum, total)
  | S n' =>
      do e <- tableEntry table i;
      if inUse e then
        if isDir e then RList_count n' (S i) table fileNum (total + 1)
        else RList_count n' (S i) table (fileNum + 1) (total + 1)
      else RList_count n' (S i) table fileNum total
  end.

(** The second loop of RList: every in-use directory entry is announced and
    listed in turn by [rec], the recursive call. *)
Fixpoint RList_subdirs (rec : string -> Z -> M (list Printed)) (n i : nat)
    (table : Directory) : M (list Printed) :=
  match n with
  | O => ret []
  | S n' =>
      do e <- tableEntry table i;
      if inUse e then
        if isDir e then
          let sec := Dir.Find table (name e) in
          do out <- rec (name e) sec;
          do rest <- RList_subdirs rec n' (S i) table;
          ret (InDir (name e) :: out ++ rest)
        else RList_subdirs rec n' (S i) table
      else RList_subdirs rec n' (S i) table
  end.

(** FileSystem::RList; the value is what it prints. *)
Fixpoint RList (fuel : nat) (name : string) (place : Z) (Nfirst : Z)
  : M (list Printed) :=
  match fuel with
  | O => outOfFuel
  | S fuel' =>
      fun d =>
        let fresh := Dir.create NumDirEntries in
        let '(directory, out) :=
          if Nfirst =? 0 then
            let directory :=
              List_loop d (strtok name) (fetchTable d fresh DirectorySector) in
            (directory, [Listing (Directory_List directory)])
          else if place >? 0 then
            let directory := fetchTable d fresh place in
            (directory, [Listing (Directory_List directory)])
          else (fresh, []) in
        (do (fileNum, total) <- RList_count 64 0 directory 0 0;
         if negb (fileNum =? total) then
           do sub <- RList_subdirs (fun nm sec => RList fuel' nm sec 1) 64 0 directory;
           ret (out ++ InFile :: sub)
         else ret out) d
  end.

(** The [for] loop inside the first loop of RRemove: the 64 entries of the
    directory at hand are compared with [pch]; on a match that is a
    directory the file at [place] is fetched into the same object, and the
    loop goes on over what was fetched. *)
Fixpoint RRemove_scan (pch : string) (place : Z) (n i : nat)
    (directory : Directory) (openFileDir : OpenFilePtr) (ButtomIsFile : bool)
  : M (Directory * OpenFilePtr * bool) :=
  match n with
  | O => ret (directory, openFileDir, ButtomIsFile)
  | S n' =>
      do e <- tableEntry directory i;
      if inUse e && bool_decide (name e = pch) then
        if isDir e then
          let openFileDir := OpenFile place in
          do directory <- Directory_FetchFrom directory openFileDir;
          RRemove_scan pch place n' (S i) directory openFileDir ButtomIsFile
        else RRemove_scan pch place n' (S i) directory openFileDir true
      else RRemove_scan pch place n' (S i) directory openFileDir ButtomIsFile
  end.

(** The first loop of RRemove over the components; [None] stands for its
    [return FALSE]. *)
Fixpoint RRemove_walk (toks : list string) (directory : Directory)
    (openFileDir : OpenFilePtr) (ButtomIsFile : bool) (fileNum : Z)
  : M (option (Directory * OpenFilePtr * bool * Z)) :=
  match toks with
  | [] => ret (Some (directory, openFileDir, ButtomIsFile, fileNum))
  | pch :: rest =>
      let place := Dir.Find directory pch in
      if place =? -1 then ret None
      else
        do (directory, openFileDir, ButtomIsFile) <-
           RRemove_scan pch place 64 0 directory openFileDir ButtomIsFile;
        RRemove_walk rest directory openFileDir ButtomIsFile
          (match rest with [] => fileNum | _ => fileNum + 1 end)
  end.

(** The block RRemove runs for an entry it removes: the sectors of the
    entry's file and its header sector are released in a free map read from
    the disk, the entry is taken out of [directory], and free map and
    directory are written back, the directory through [openFileDir]. *)
Definition RRemove_release (sec : Z) (nm : string) (directory : Directory)
    (target : OpenFilePtr) : M Directory :=
  do fileHdr <- FileHeader_FetchFrom sec;
  do freeMap <- PersistentBitmap_new freeMapFile;
  do freeMap <- Deallocate fileHdr freeMap;
  match Bitmap.Clear sec freeMap with
  | None => abort
  | Some freeMap =>
      let '(_, directory) := Dir.Remove directory nm in
      do _ <- PersistentBitmap_WriteBack freeMap freeMapFile;
      do _ <- Directory_WriteBack directory target;
      ret directory
  end.

(** The loop of RRemove over the 64 entries of the directory to empty;
    [rec] is the recursive call. *)
Fixpoint RRemove_entries (rec : string -> Z -> M bool) (n i : nat)
    (directory : Directory) (openFileDir : OpenFilePtr) (ButtomIsFile : bool)
  : M Directory :=
  match n with
  | O => ret directory
  | S n' =>
      do e <- tableEntry directory i;
      if inUse e then
        let sec := Dir.Find directory (name e) in
        if isDir e && negb ButtomIsFile then
          do _ <- rec (name e) sec;
          do directory <- RRemove_release sec (name e) directory openFileDir;
          RRemove_entries rec n' (S i) directory openFileDir ButtomIsFile
        else if negb (isDir e) then
          do directory <- RRemove_release sec (name e) directory openFileDir;
          RRemove_entries rec n' (S i) directory openFileDir ButtomIsFile
        else RRemove_entries rec n' (S i) directory openFileDir ButtomIsFile
      else RRemove_entries rec n' (S i) directory openFileDir ButtomIsFile
  end.

(** The last loop of RRemove, over the copy of the path, which stops before
    the component numbered [fileNum]; the result carries that component
    ([None] when the path is used up), and is [None] for [return FALSE]. *)
Fixpoint RRemove_rewalk (toks : list string) (count fileNum : Z)
    (directory : Directory) (openFileDir : OpenFilePtr)
  : M (option (Directory * OpenFilePtr * option string)) :=
  match toks with
  | [] => ret (Some (directory, openFileDir, None))
  | pch2 :: rest =>
      if count <? fileNum then
        let place := Dir.Find directory pch2 in
        if place =? -1 then ret None
        else if place >? 0 then
          let openFileDir := OpenFile place in
          do directory <- Directory_FetchFrom directory openFileDir;
          RRemove_rewalk rest (count + 1) fileNum directory openFileDir
        else RRemove_rewalk rest (count + 1) fileNum directory openFileDir
      else ret (Some (directory, openFileDir, Some pch2))
  end.

(** FileSystem::RRemove.  [junk] is what the local [openFileDir] holds
    before anything is assigned to it.  The function has two [return FALSE]
    and no other [return]: every other path runs off its end. *)
Fixpoint RRemove (fuel : nat) (name : string) (place : Z) (Nfirst : Z) (junk : Z)
  : M bool :=
  match fuel with
  | O => outOfFuel
  | S fuel' =>
      if negb (fitsName2 name) then undefined
      else
        let fresh := Dir.create NumDirEntries in
        do found <-
           (if Nfirst =? 0 then
              do directory <- Directory_FetchFrom fresh directoryFile;
              RRemove_walk (strtok name) directory (Wild junk) false 0
            else if place >? 0 then
              do directory <- Directory_FetchFrom fresh (OpenFile place);
              ret (Some (directory, OpenFile place, false, 0))
            else ret (Some (fresh, Wild junk, false, 0)));
        match found with
        | None => ret false
        | Some (directory, openFileDir, ButtomIsFile, fileNum) =>
            do directory <-
               RRemove_entries (fun nm sec => RRemove fuel' nm sec 1 junk) 64 0
                 directory openFileDir ButtomIsFile;
            if (Nfirst =? 0) && negb ButtomIsFile then
              do directory <- Directory_FetchFrom directory directoryFile;
              do again <- RRemove_rewalk (strtok name) 0 fileNum directory openFileDir;
              match again with
              | None => ret false
              | Some (directory, openFileDir, None) => undefined
              | Some (directory, openFileDir, Some pch2) =>
                  let sec := Dir.Find directory pch2 in
                  do _ <- RRemove_release sec pch2 directory
                            (if fileNum =? 0 then directoryFile else openFileDir);
                  undefined
              end
            else undefined
        end
  end.

End ListRemove.

(** ** Vocabulary of the statements *)

(** the disk an outcome leaves behind *)
Definition diskOf {S A} (o : outcome S A) : S :=
  match o with
  | Ret _ s | Abort s | Undefined s | OutOfFuel s => s
  end.

(** Two headers that differ in the entries of [dataSectors] at most. *)
Definition sameShape (h h' : FileHeader) : Prop :=
  numBytes h' = numBytes h /\ numSectors h' = numSectors h /\
  length (dataSectors h') = length (dataSectors h).

(** slot [j] of the table holds a pointer that tests as non-null, resp. as
    null *)
Definition bound (t : OpenTable) (j : Z) : Prop :=
  exists q, t !! Z.to_nat j = Some q /\ isNull q = false.

Definition free (t : OpenTable) (j : Z) : Prop :=
  exists p, t !! Z.to_nat j = Some p /\ isNull p = true.


(** the free map with the sectors of [l] cleared *)
Definition clearAll (l : list Z) (fm : Bitmap.t) : Bitmap.t :=
  foldl (fun b s => <[Z.to_nat s := false]> b) fm l.

(** the free map a disk holds in the bitmap file *)
Definition freeMapOf (d : Disk) : option Bitmap.t :=
  match images d !! 0 with
  | Some (BitmapImage b) => Some b
  | _ => None
  end.

Section Walk.
Context {P : Platform}.

(** the root directory as the operations fetch it *)
Definition rootTable (d : Disk) : Directory :=
  fetchTable d (Dir.create NumDirEntries) DirectorySector.

(** the file CreateDir reads the current directory from and writes it
    back to *)
Definition currentDir (count : Z) (openFileDir : OpenFilePtr) : OpenFilePtr :=
  if count =? 0 then directoryFile else openFileDir.

(** What a disk [d2] shows once directory [pch] has been made in the
    directory [directory] held by the file with header sector [cur]: the
    new entry, marked as a directory, sits in slot [i] of that directory
    and names sector [sec]; that sector holds the header of a file of
    [DirectoryFileSize] bytes, whose content is an empty directory; and
    the free map on the disk is [fm']. *)
Definition dirCreated (d2 : Disk) (cur : Z) (directory : Directory) (i : nat)
    (pch : string) (sec : Z) (fm' : Bitmap.t) : Prop :=
  fetchTable d2 (Dir.create NumDirEntries) cur
  = <[i := {| inUse := true; isDir := true; sector := sec; name := pch |}]>
      directory /\
  (exists hdr, headers d2 !! sec = Some hdr /\ numBytes hdr = DirectoryFileSize) /\
  images d2 !! sec = Some (TableImage (Dir.create NumDirEntries)) /\
  freeMapOf d2 = Some fm'.


(** The header sector of the last component of [toks], when every
    component is found on the way, each with a sector that is not
    negative. *)
Fixpoint walk (d : Disk) (directory : Directory) (toks : list string) : option Z :=
  match toks with
  | [] => None
  | pch :: rest =>
      let sec := Dir.Find directory pch in
      if sec >=? 0 then
        match rest with
        | [] => Some sec
        | _ => walk d (fetchTable d directory sec) rest
        end
      else None
  end.

End Walk.

Section Walk2.
Context {P : Platform}.

(** The directory the walk of Create stands in after the components
    [toks], each entered through the entry found for it. *)
Fixpoint reach (d : Disk) (directory : Directory) (toks : list string) : Directory :=
  match toks with
  | [] => directory
  | pch :: rest => reach d (fetchTable d directory (Dir.Find directory pch)) rest
  end.

(** The header sector of the file that directory is read from, [cur] when
    [toks] is empty. *)
Fixpoint reachSector (d : Disk) (directory : Directory) (toks : list string)
    (cur : Z) : Z :=
  match toks with
  | [] => cur
  | pch :: rest =>
      reachSector d (fetchTable d directory (Dir.Find directory pch)) rest
        (Dir.Find directory pch)
  end.

(** Every component of [toks] is found as CreateDir looks for it: each in
    the table fetched afresh from the file of the entry before it, starting
    with the file whose header is in sector [cur]. *)
Fixpoint allDirsFound (d : Disk) (cur : Z) (toks : list string) : Prop :=
  match toks with
  | [] => True
  | pch :: rest =>
      let directory := fetchTable d (Dir.create NumDirEntries) cur in
      Dir.Find directory pch <> -1 /\ allDirsFound d (Dir.Find directory pch) rest
  end.

(** No in-use entry of the table is a directory. *)
Definition plainOnly (table : Directory) : Prop :=
  forall e, e ∈ table -> inUse e = true -> isDir e = false.

End Walk2.

Section TreeSize.
Context {P : Platform}.

(** The number of sectors the tree of a file of [fileSize] bytes takes: its
    data sectors and one sector for each child header at every level, found
    by going through the sizes as Allocate does.  [None] when a header would
    need more entries than it has, or when [fuel] levels are not enough. *)
Fixpoint treeSectors_children (sub : Z -> option Z) (chunk : Z) (slots : nat)
    (fileSize : Z) : option Z :=
  if fileSize >? 0 then
    match slots with
    | O => None
    | S slots' =>
        match sub (if fileSize >? chunk then chunk else fileSize),
              treeSectors_children sub chunk slots' (fileSize - chunk) with
        | Some c, Some r => Some (1 + c + r)
        | _, _ => None
        end
    end
  else Some 0.

(** the count for a file, level by level as FileHeader::Allocate descends *)
Fixpoint treeSectors (fuel : nat) (fileSize : Z) : option Z :=
  match fuel with
  | O => None
  | S fuel' =>
      let slots := Z.to_nat NumDirect in
      if fileSize >? MaxFileSize3 then
        treeSectors_children (treeSectors fuel') MaxFileSize3 slots fileSize
      else if fileSize >? MaxFileSize2 then
        treeSectors_children (treeSectors fuel') MaxFileSize2 slots fileSize
      else if fileSize >? MaxFileSize then
        treeSectors_children (treeSectors fuel') MaxFileSize slots fileSize
      else
        let n := Z.to_nat (divRoundUp fileSize SectorSize) in
        if (n <=? slots)%nat then Some (Z.of_nat n) else None
  end.

(** [alloc] behaves on the free space as the count [sub] says: it answers
    FALSE and changes nothing below the data sectors of the file, stops on
    an assertion between that number and the count, and from the count on
    answers TRUE, having taken exactly that many clear sectors and set none
    free. *)
Definition allocatesBy (alloc : Bitmap.t -> Z -> M (bool * FileHeader * Bitmap.t))
    (sub : Z -> option Z) : Prop :=
  forall fileSize c fm d,
    sub fileSize = Some c ->
    divRoundUp fileSize SectorSize <= c /\
    (Bitmap.NumClear fm < divRoundUp fileSize SectorSize ->
     exists h, alloc fm fileSize d = Ret (false, h, fm) d) /\
    (divRoundUp fileSize SectorSize <= Bitmap.NumClear fm < c ->
     exists d', alloc fm fileSize d = Abort d') /\
    (c <= Bitmap.NumClear fm ->
     exists h fm' d',
       alloc fm fileSize d = Ret (true, h, fm') d' /\
       Bitmap.NumClear fm' = Bitmap.NumClear fm - c /\
       length fm' = length fm /\
       (forall k : nat, fm !! k = Some true -> fm' !! k = Some true) /\
       images d' = images d).

End TreeSize.

(** The constants of the NachOS distribution: 128-byte sectors, 32 tracks of
    32 sectors, 30 direct entries per header, and three thresholds that grow
    by that factor; a directory entry of 20 bytes; a file that holds no
    directory reads as no change to the table. *)
#[local] Instance stock : Platform := {|
  SectorSize := 128;
  NumSectors := 1024;
  NumDirect := 30;
  MaxFileSize := 3840;
  MaxFileSize2 := 115200;
  MaxFileSize3 := 3456000;
  BitsInByte := 8;
  sizeofDirectoryEntry := 20;
  rawTable := fun _ table => table
|}.

(** the disk right after [FileSystem(TRUE)] *)
Definition formatted : Disk := diskOf (FileSystem_format 4 blankDisk).

(** the free map that disk holds: sectors 0 to 12 taken, 1011 clear *)
Definition formattedMap : Bitmap.t := default [] (freeMapOf formatted).

(** a free map with exactly 31 clear sectors, the last ones *)
Definition crowdedMap : Bitmap.t := replicate 993 true ++ replicate 31 false.

(** that disk after [Create("/a.txt", 50)] *)
Definition withA : Disk := diskOf (Create 4 "/a.txt" 50 0 formatted).

(** and after [CreateDir("/x/y/z")] instead *)
Definition nested : Disk := diskOf (CreateDir 4 "/x/y/z" 0 false formatted).

(** a disk with the directory [/d] and the 10-byte file [/d/a] in it *)
Definition nestedFile : Disk :=
  diskOf (Create 4 "/d/a" 10 0 (diskOf (CreateDir 4 "/d" 0 false formatted))).

(** a table of 22 slots with id 1 bound and the others empty *)
Definition oneOpen : OpenTable := <[1%nat := OpenFile 13]> (replicate 22 NULL).

(** a table of 22 slots with every id from 1 to 21 bound *)
Definition allOpen : OpenTable := NULL :: replicate 21 (OpenFile 13).

(** ** Reasoning about outcomes *)

Lemma bind_Ret {S A B} (m : S -> outcome S A) (k : A -> S -> outcome S B) s b s' :
  bind m k s = Ret b s' ->
  exists a s1, m s = Ret a s1 /\ k a s1 = Ret b s'.
Proof.
  unfold bind. destruct (m s) as [a s1| | | ]; try discriminate.
  intros H. exists a, s1. split; [reflexivity | exact H].
Qed.

Lemma bind_returns {S A B} (m : S -> outcome S A) (k : A -> S -> outcome S B) s :
  returns (bind m k s) ->
  exists a s1, m s = Ret a s1 /\ returns (k a s1).
Proof.
  unfold bind. destruct (m s) as [a s1| | | ]; simpl; try contradiction.
  intros H. exists a, s1. split; [reflexivity | exact H].
Qed.

Lemma bind_eq_Ret {S A B} (m : S -> outcome S A) (k : A -> S -> outcome S B) s a s1 :
  m s = Ret a s1 -> bind m k s = k a s1.
Proof. unfold bind. intros ->. reflexivity. Qed.

Lemma bind_eq_Abort {S A B} (m : S -> outcome S A) (k : A -> S -> outcome S B) s s1 :
  m s = Abort s1 -> bind m k s = Abort s1.
Proof. unfold bind. intros ->. reflexivity. Qed.

Lemma ASSERT_Ret {S} (c : bool) (s s' : S) u :
  ASSERT c s = Ret u s' -> c = true /\ s' = s.
Proof. unfold ASSERT. destruct c; [intros [= _ <-]; auto | discriminate]. Qed.

(** Peels the leading [do] off a hypothesis that says a computation
    returned. *)
Ltac peel H :=
  let a := fresh "a" in
  let s := fresh "s" in
  let H1 := fresh "Hm" in
  first
    [ apply bind_Ret in H; destruct H as (a & s & H1 & H)
    | apply bind_returns in H; destruct H as (a & s & H1 & H) ].

(** ** Shape of the header built by Allocate *)

Lemma sameShape_refl h : sameShape h h.
Proof. repeat split. Qed.

Lemma sameShape_trans h1 h2 h3 : sameShape h1 h2 -> sameShape h2 h3 -> sameShape h1 h3.
Proof. unfold sameShape. intros (-> & -> & ->) (-> & -> & ->). repeat split. Qed.

Lemma storeSector_Ret h i v h' d d' :
  storeSector h i v d = Ret h' d' ->
  d' = d /\ 0 <= i < Z.of_nat (length (dataSectors h)) /\
  h' = {| numBytes := numBytes h; numSectors := numSectors h;
          dataSectors := <[Z.to_nat i := v]> (dataSectors h) |}.
Proof.
  unfold storeSector.
  destruct ((0 <=? i) && (i <? Z.of_nat (length (dataSectors h)))) eqn:E;
    [| discriminate].
  intros [= <- <-]. apply andb_true_iff in E as [E1 E2].
  repeat split; lia.
Qed.

Lemma storeSector_shape h i v h' d d' :
  storeSector h i v d = Ret h' d' -> sameShape h h'.
Proof.
  intros H. apply storeSector_Ret in H as (_ & _ & ->).
  unfold sameShape; simpl. rewrite length_insert. repeat split.
Qed.

Lemma storeSector_ok h i v d :
  0 <= i < Z.of_nat (length (dataSectors h)) ->
  storeSector h i v d
  = Ret {| numBytes := numBytes h; numSectors := numSectors h;
           dataSectors := <[Z.to_nat i := v]> (dataSectors h) |} d.
Proof.
  intros Hi. unfold storeSector.
  destruct (Z.leb_spec 0 i); [| lia].
  destruct (Z.ltb_spec i (Z.of_nat (length (dataSectors h)))); [| lia].
  reflexivity.
Qed.

(** C division on non-negative numbers, between two multiples. *)
Lemma quot_between n s k :
  0 < s -> 0 <= k -> k * s <= n < (k + 1) * s -> Z.quot n s = k.
Proof.
  intros Hs Hk Hn. rewrite Z.quot_div_nonneg by nia.
  symmetry. apply (Z.div_unique n s k (n - k * s)); lia.
Qed.

Lemma loadSector_Ret h i v d d' :
  loadSector h i d = Ret v d' ->
  d' = d /\ 0 <= i /\ dataSectors h !! Z.to_nat i = Some v.
Proof.
  unfold loadSector. destruct (0 <=? i) eqn:E; [| discriminate].
  destruct (dataSectors h !! Z.to_nat i) as [w|] eqn:L; [| discriminate].
  intros [= <- <-]. repeat split; lia.
Qed.

Section AllocateShape.
Context {P : Platform}.

Lemma Allocate_children_shape alloc chunk slots :
  forall i fileSize h fm d h' fm' d',
    Allocate_children alloc chunk slots i fileSize h fm d = Ret (h', fm') d' ->
    sameShape h h'.
Proof.
  induction slots as [| slots IH]; intros i fileSize h fm d h' fm' d' H; simpl in H.
  - destruct (fileSize >? 0); [discriminate |].
    injection H as <- _ _. apply sameShape_refl.
  - destruct (fileSize >? 0).
    + destruct (Bitmap.FindAndSet fm) as [s fm1].
      peel H. apply storeSector_shape in Hm.
      peel H. peel H. destruct a1 as [[ok next] fm2].
      peel H. peel H.
      apply IH in H. eapply sameShape_trans; eauto.
    + injection H as <- _ _. apply sameShape_refl.
Qed.

Lemma Allocate_direct_shape n :
  forall i h fm d h' fm' d',
    Allocate_direct n i h fm d = Ret (h', fm') d' -> sameShape h h'.
Proof.
  induction n as [| n IH]; intros i h fm d h' fm' d' H; simpl in H.
  - injection H as <- _ _. apply sameShape_refl.
  - destruct (Bitmap.FindAndSet fm) as [s fm1].
    peel H. apply storeSector_shape in Hm. peel H.
    apply IH in H. eapply sameShape_trans; eauto.
Qed.

(** Whatever Allocate answers, the header records the size asked for, the
    number of sectors that size rounds up to, and keeps its [NumDirect]
    entries. *)
Lemma Allocate_header fuel fm fileSize d ok h fm' d' :
  Allocate fuel fm fileSize d = Ret (ok, h, fm') d' ->
  numBytes h = fileSize /\
  numSectors h = divRoundUp fileSize SectorSize /\
  length (dataSectors h) = Z.to_nat NumDirect.
Proof.
  destruct fuel as [| fuel]; simpl; [discriminate |].
  set (h0 := {| numBytes := fileSize;
                numSectors := divRoundUp fileSize SectorSize;
                dataSectors := replicate (Z.to_nat NumDirect) (-1) |}).
  assert (S0 : forall h1, sameShape h0 h1 ->
               numBytes h1 = fileSize /\
               numSectors h1 = divRoundUp fileSize SectorSize /\
               length (dataSectors h1) = Z.to_nat NumDirect).
  { intros h1 (E1 & E2 & E3). subst h0; simpl in *.
    rewrite length_replicate in E3. auto. }
  intros H.
  destruct (Bitmap.NumClear fm <? divRoundUp fileSize SectorSize).
  { injection H as _ <- _ _. apply S0, sameShape_refl. }
  repeat match type of H with
         | (if ?c then _ else _) _ = _ => destruct c
         end;
    peel H; destruct a as [h1 fm1]; injection H as _ <- _ _; apply S0.
  1-3: eapply Allocate_children_shape; exact Hm.
  eapply Allocate_direct_shape; exact Hm.
Qed.

End AllocateShape.

(** ** The bitmap primitives *)

Lemma NumClear_nonneg (b : Bitmap.t) : 0 <= Bitmap.NumClear b.
Proof. induction b as [| [] b IH]; simpl; lia. Qed.

Lemma NumClear_mark (b : Bitmap.t) (k : nat) :
  b !! k = Some false ->
  Bitmap.NumClear (<[k := true]> b) = Bitmap.NumClear b - 1.
Proof.
  revert k. induction b as [| x b IH]; intros [| k] H; simpl in *; try discriminate.
  - injection H as ->. lia.
  - rewrite IH by exact H. lia.
Qed.

Lemma NumClear_clear (b : Bitmap.t) (k : nat) :
  b !! k = Some true ->
  Bitmap.NumClear (<[k := false]> b) = Bitmap.NumClear b + 1.
Proof.
  revert k. induction b as [| x b IH]; intros [| k] H; simpl in *; try discriminate.
  - injection H as ->. lia.
  - rewrite IH by exact H. lia.
Qed.

(** The scan answers -1 on a map without a clear bit, and otherwise the
    position of the first clear bit. *)
Lemma findClear_spec (b : Bitmap.t) : forall i,
  (Bitmap.findClear i b = -1 /\ Bitmap.NumClear b = 0) \/
  (exists k : nat, Bitmap.findClear i b = i + Z.of_nat k /\
                   b !! k = Some false /\
                   forall j : nat, (j < k)%nat -> b !! j = Some true).
Proof.
  induction b as [| x b IH]; intros i; simpl.
  - left. auto.
  - destruct x.
    + destruct (IH (i + 1)) as [[E N] | (k & E & L & Hlow)].
      * left. split; [exact E | lia].
      * right. exists (S k). split; [lia |]. split; [exact L |].
        intros [| j] Hj; simpl; [reflexivity | apply Hlow; lia].
    + right. exists O. split; [lia |]. split; [reflexivity |]. intros j Hj; lia.
Qed.

Lemma FindAndSet_spec (b b' : Bitmap.t) (s : Z) :
  Bitmap.FindAndSet b = (s, b') ->
  (s = -1 /\ b' = b /\ Bitmap.NumClear b = 0) \/
  (0 <= s /\ b !! Z.to_nat s = Some false /\
   (forall j : nat, (j < Z.to_nat s)%nat -> b !! j = Some true) /\
   b' = <[Z.to_nat s := true]> b /\
   Bitmap.NumClear b' = Bitmap.NumClear b - 1).
Proof.
  unfold Bitmap.FindAndSet.
  destruct (findClear_spec b 0) as [[E N] | (k & E & L & Hlow)]; rewrite E.
  - simpl. intros [= <- <-]. left. auto.
  - destruct (Z.eqb_spec (0 + Z.of_nat k) (-1)) as [F | _]; [lia |].
    intros [= <- <-]. right.
    replace (Z.to_nat (0 + Z.of_nat k)) with k by lia.
    repeat split; auto; [lia |]. apply NumClear_mark, L.
Qed.

Lemma FindAndSet_some (b : Bitmap.t) :
  0 < Bitmap.NumClear b ->
  exists s, Bitmap.FindAndSet b = (s, <[Z.to_nat s := true]> b) /\
            0 <= s /\ b !! Z.to_nat s = Some false /\
            (forall j : nat, (j < Z.to_nat s)%nat -> b !! j = Some true) /\
            Bitmap.NumClear (<[Z.to_nat s := true]> b) = Bitmap.NumClear b - 1.
Proof.
  intros Hpos. destruct (Bitmap.FindAndSet b) as [s b'] eqn:E.
  destruct (FindAndSet_spec _ _ _ E) as [(_ & _ & N) | (H0 & L & Hlow & -> & N)];
    [lia |].
  exists s. auto.
Qed.

Lemma FindAndSet_none (b : Bitmap.t) :
  Bitmap.NumClear b = 0 -> Bitmap.FindAndSet b = (-1, b).
Proof.
  intros H0. destruct (Bitmap.FindAndSet b) as [s b'] eqn:E.
  destruct (FindAndSet_spec _ _ _ E) as [(-> & -> & _) | (_ & _ & _ & _ & N)];
    [reflexivity |].
  pose proof (NumClear_nonneg b'). lia.
Qed.

(** ** The direct case of Allocate *)

(** With [n] clear bits at hand and [n] entries left in the header, the
    [for] loop takes the [n] lowest clear sectors and touches neither the
    disk nor a bit that was set. *)
Lemma Allocate_direct_ok n :
  forall i h fm d,
    0 <= i -> (Z.to_nat i + n <= length (dataSectors h))%nat ->
    Z.of_nat n <= Bitmap.NumClear fm ->
    exists h' fm',
      Allocate_direct n i h fm d = Ret (h', fm') d /\
      sameShape h h' /\
      Bitmap.NumClear fm' = Bitmap.NumClear fm - Z.of_nat n /\
      length fm' = length fm /\
      forall k : nat, fm !! k = Some true -> fm' !! k = Some true.
Proof.
  induction n as [| n IH]; intros i h fm d Hi Hlen Hfree; simpl.
  - exists h, fm. repeat split; auto. lia.
  - destruct (FindAndSet_some fm) as (s & -> & Hs & L & _ & N); [lia |].
    unfold bind at 1. unfold storeSector.
    destruct (Z.leb_spec 0 i); [| lia].
    destruct (Z.ltb_spec i (Z.of_nat (length (dataSectors h)))); [| lia].
    simpl. unfold bind at 1. unfold ASSERT.
    destruct (Z.geb_spec s 0); [| lia].
    set (h1 := {| numBytes := numBytes h; numSectors := numSectors h;
                  dataSectors := <[Z.to_nat i := s]> (dataSectors h) |}).
    destruct (IH (i + 1) h1 (<[Z.to_nat s := true]> fm) d) as (h' & fm' & E & Sh & N' & Len & Keep).
    + lia.
    + subst h1; simpl. rewrite length_insert. lia.
    + lia.
    + exists h', fm'. split; [exact E |]. split.
      * eapply sameShape_trans; [| exact Sh].
        subst h1; unfold sameShape; simpl. rewrite length_insert. auto.
      * split; [lia |]. split; [rewrite Len; apply length_insert |].
        intros k Hk. apply Keep.
        destruct (decide (k = Z.to_nat s)) as [-> | Hne]; [congruence |].
        rewrite list_lookup_insert_ne by congruence. exact Hk.
Qed.

Section AllocateDirect.
Context {P : Platform}.

(** A size within the direct span: Allocate answers FALSE exactly when
    fewer sectors are clear than the data needs, and otherwise takes that
    many sectors and nothing else. *)
Lemma Allocate_direct_span fuel fm fileSize d :
  fileSize <= MaxFileSize -> fileSize <= MaxFileSize2 -> fileSize <= MaxFileSize3 ->
  0 <= divRoundUp fileSize SectorSize <= NumDirect ->
  let n := divRoundUp fileSize SectorSize in
  (Bitmap.NumClear fm < n ->
   exists h, Allocate (S fuel) fm fileSize d = Ret (false, h, fm) d) /\
  (n <= Bitmap.NumClear fm ->
   exists h fm',
     Allocate (S fuel) fm fileSize d = Ret (true, h, fm') d /\
     numBytes h = fileSize /\
     Bitmap.NumClear fm' = Bitmap.NumClear fm - n /\
     length fm' = length fm /\
     forall k : nat, fm !! k = Some true -> fm' !! k = Some true).
Proof.
  intros H1 H2 H3 Hn n. simpl.
  fold n.
  split; intros Hfree.
  - destruct (Z.ltb_spec (Bitmap.NumClear fm) n); [| lia]. eexists; reflexivity.
  - destruct (Z.ltb_spec (Bitmap.NumClear fm) n); [lia |].
    destruct (Z.gtb_spec fileSize MaxFileSize3); [lia |].
    destruct (Z.gtb_spec fileSize MaxFileSize2); [lia |].
    destruct (Z.gtb_spec fileSize MaxFileSize); [lia |].
    set (h0 := {| numBytes := fileSize; numSectors := n;
                  dataSectors := replicate (Z.to_nat NumDirect) (-1) |}).
    destruct (Allocate_direct_ok (Z.to_nat n) 0 h0 fm d)
      as (h' & fm' & E & (Sb & _ & _) & N & Len & Keep).
    + lia.
    + subst h0; simpl. rewrite length_replicate. lia.
    + lia.
    + exists h', fm'. unfold bind. rewrite E. simpl.
      split; [reflexivity |]. split; [exact Sb |].
      split; [lia |]. auto.
Qed.

End AllocateDirect.

(** ** Deallocate *)

(** A run of the loop that returns has read [n] entries of [dataSectors]
    from [i] on, all inside the array. *)
Lemma Deallocate_loop_bound n :
  forall i h fm d, 0 <= i ->
    returns (Deallocate_loop n i h fm d) ->
    n = O \/ (Z.to_nat i + n <= length (dataSectors h))%nat.
Proof.
  induction n as [| n IH]; intros i h fm d Hi H; simpl in H; [auto |].
  right. peel H. apply loadSector_Ret in Hm as (-> & _ & L).
  apply lookup_lt_Some in L.
  peel H.
  destruct (Bitmap.Clear a fm) as [fm1|]; [| contradiction].
  apply IH in H; lia.
Qed.

(** The loop leaves the disk alone and changes no bit other than those the
    entries of this header name. *)
Lemma Deallocate_loop_frame n :
  forall i h fm d fm' d',
    Deallocate_loop n i h fm d = Ret fm' d' ->
    d' = d /\ length fm' = length fm /\
    forall k : nat, Z.of_nat k ∉ dataSectors h -> fm' !! k = fm !! k.
Proof.
  induction n as [| n IH]; intros i h fm d fm' d' H; simpl in H.
  - injection H as <- <-. auto.
  - peel H. apply loadSector_Ret in Hm as (-> & _ & L).
    peel H. apply ASSERT_Ret in Hm as (_ & ->).
    unfold Bitmap.Clear in H.
    destruct (Bitmap.inRange a fm) eqn:R; [| discriminate].
    apply IH in H as (-> & Hlen & Hk). split; [reflexivity |].
    split; [rewrite Hlen; apply length_insert |].
    intros k Hnot. rewrite Hk by exact Hnot.
    apply list_lookup_insert_ne. intros E. subst k.
    unfold Bitmap.inRange in R. apply andb_true_iff in R as [R _].
    apply Hnot. rewrite Z2Nat.id by lia.
    apply list_elem_of_lookup. exists (Z.to_nat i). exact L.
Qed.

Section DeallocateIndirect.
Context {P : Platform}.
Hypothesis SectorSize_pos : 0 < SectorSize.
Hypothesis NumDirect_nonneg : 0 <= NumDirect.
Hypothesis direct_span : NumDirect * SectorSize <= MaxFileSize.

(** A file past the direct span has more sectors than a header has
    entries. *)
Lemma indirect_numSectors fileSize :
  MaxFileSize < fileSize -> NumDirect < divRoundUp fileSize SectorSize.
Proof.
  intros H. unfold divRoundUp.
  assert (E : (NumDirect + 1) * SectorSize <= fileSize + SectorSize - 1) by lia.
  apply (Z.quot_le_mono _ _ SectorSize) in E; [| lia].
  rewrite Z.quot_mul in E by lia. lia.
Qed.

(** C1, on the code: for a file that needs indirection, Deallocate on the
    top-level header built by Allocate never runs to its end, because its
    single loop walks [numSectors] entries of that one header and leaves
    the array; and as far as the loop gets, it fetches no child header
    (the disk is not touched) and clears no bit other than those the
    top-level entries name, so neither the data sectors of the children
    nor any sector below them is ever released. *)
Theorem Deallocate_skips_child_headers fuel fm fileSize d h fm1 d1 :
  MaxFileSize < fileSize ->
  Allocate fuel fm fileSize d = Ret (true, h, fm1) d1 ->
  (forall d2, ~ returns (Deallocate h fm1 d2)) /\
  (forall n d2 fm3 d3,
      Deallocate_loop n 0 h fm1 d2 = Ret fm3 d3 ->
      d3 = d2 /\
      forall k : nat, Z.of_nat k ∉ dataSectors h -> fm3 !! k = fm1 !! k).
Proof.
  intros Hsize HA.
  apply Allocate_header in HA as (_ & Hn & Hlen).
  split.
  - intros d2 R. unfold Deallocate in R.
    apply Deallocate_loop_bound in R; [| lia].
    pose proof (indirect_numSectors fileSize Hsize) as Hlt.
    rewrite Hn in R. rewrite Hlen in R. lia.
  - intros n d2 fm3 d3 HD.
    apply Deallocate_loop_frame in HD as (-> & _ & Hk). auto.
Qed.

End DeallocateIndirect.

(** C3, on the code: for every header whose [numBytes] is past the direct
    span, ByteToSector hands no sector back, whatever the offset: each of its
    three indirect branches calls itself on the child and then runs off the
    end of the function without a [return]. *)
Theorem ByteToSector_indirect_returns_nothing `{P : Platform} fuel h offset d :
  MaxFileSize < numBytes h ->
  ~ returns (ByteToSector fuel h offset d).
Proof.
  intros Hsize R. destruct fuel as [| fuel]; simpl in R; [exact R |].
  assert (V : forall chunk,
             ~ returns ((do s <- loadSector h (divRoundDown offset chunk);
                         do next <- FileHeader_FetchFrom s;
                         do _ <- ByteToSector fuel next
                                   (offset - divRoundDown offset chunk * chunk);
                         (undefined : M Z)) d)).
  { intros chunk R'. peel R'. peel R'. peel R'. exact R'. }
  destruct (numBytes h >? MaxFileSize3); [exact (V _ R) |].
  destruct (numBytes h >? MaxFileSize2); [exact (V _ R) |].
  destruct (numBytes h >? MaxFileSize) eqn:E; [exact (V _ R) |].
  lia.
Qed.

(** The direct branch is the one that answers: the entry of index
    [offset / SectorSize]. *)
Lemma ByteToSector_direct `{P : Platform} fuel h offset d :
  numBytes h <= MaxFileSize -> numBytes h <= MaxFileSize2 ->
  numBytes h <= MaxFileSize3 ->
  ByteToSector (S fuel) h offset d = loadSector h (Z.quot offset SectorSize) d.
Proof.
  intros H1 H2 H3. simpl.
  destruct (Z.gtb_spec (numBytes h) MaxFileSize3); [lia |].
  destruct (Z.gtb_spec (numBytes h) MaxFileSize2); [lia |].
  destruct (Z.gtb_spec (numBytes h) MaxFileSize); [lia |].
  reflexivity.
Qed.

(** One level of indirection: even when the child answers with a sector,
    the caller answers with none. *)
Lemma ByteToSector_drops_child_answer `{P : Platform} fuel h offset d s next v :
  MaxFileSize < numBytes h -> numBytes h <= MaxFileSize2 ->
  numBytes h <= MaxFileSize3 ->
  loadSector h (divRoundDown offset MaxFileSize) d = Ret s d ->
  headers d !! s = Some next ->
  ByteToSector fuel next (offset - divRoundDown offset MaxFileSize * MaxFileSize) d
  = Ret v d ->
  ByteToSector (S fuel) h offset d = Undefined d.
Proof.
  intros H1 H2 H3 Hload Hnext Hchild. simpl.
  destruct (Z.gtb_spec (numBytes h) MaxFileSize3); [lia |].
  destruct (Z.gtb_spec (numBytes h) MaxFileSize2); [lia |].
  destruct (Z.gtb_spec (numBytes h) MaxFileSize); [| lia].
  rewrite (bind_eq_Ret _ _ _ _ _ Hload).
  assert (Hfetch : FileHeader_FetchFrom s d = Ret next d).
  { unfold FileHeader_FetchFrom. rewrite Hnext. reflexivity. }
  rewrite (bind_eq_Ret _ _ _ _ _ Hfetch).
  rewrite (bind_eq_Ret _ _ _ _ _ Hchild). reflexivity.
Qed.

(** The failing case of C1 and C3 on the distribution's constants: a file of
    3841 bytes, one byte past the direct span, on a fresh disk. *)
Lemma Deallocate_skips_child_headers_witness :
  exists h fm1 d1,
    Allocate 4 formattedMap 3841 formatted = Ret (true, h, fm1) d1 /\
    ((forall d2, ~ returns (Deallocate h fm1 d2)) /\
     (forall n d2 fm3 d3,
         Deallocate_loop n 0 h fm1 d2 = Ret fm3 d3 ->
         d3 = d2 /\
         forall k : nat, Z.of_nat k ∉ dataSectors h -> fm3 !! k = fm1 !! k)).
Proof.
  eexists _, _, _. split; [vm_compute; reflexivity |].
  apply (Deallocate_skips_child_headers (P := stock)) with
    (fuel := 4%nat) (fm := formattedMap) (fileSize := 3841) (d := formatted)
    (d1 := diskOf (Allocate 4 formattedMap 3841 formatted)).
  - simpl; lia.
  - simpl; lia.
  - simpl; lia.
  - simpl; lia.
  - vm_compute; reflexivity.
Defined.

(** On that file the call stops on its assertion at the third entry, which
    holds -1, with the 31 data sectors of the two children still marked:
    only the two child header sectors, 13 and 44, went clear in the copy the
    call worked on. *)
Lemma Deallocate_3841_aborts :
  exists h fm1 d1,
    Allocate 4 formattedMap 3841 formatted = Ret (true, h, fm1) d1 /\
    Bitmap.NumClear fm1 = Bitmap.NumClear formattedMap - 33 /\
    take 3 (dataSectors h) = [13; 44; -1] /\
    Deallocate h fm1 d1 = Abort d1.
Proof.
  eexists _, _, _. split; [vm_compute; reflexivity |].
  repeat split; vm_compute; reflexivity.
Qed.

(** On that file the two children answer for their first byte with the
    data sectors 14 and 45; the top-level header, asked for bytes 0 and 3840,
    answers with nothing. *)
Lemma ByteToSector_3841 :
  exists h fm1 d1 child0 child1,
    Allocate 4 formattedMap 3841 formatted = Ret (true, h, fm1) d1 /\
    headers d1 !! 13 = Some child0 /\ headers d1 !! 44 = Some child1 /\
    ByteToSector 3 child0 0 d1 = Ret 14 d1 /\
    ByteToSector 4 h 0 d1 = Undefined d1 /\
    ByteToSector 3 child1 0 d1 = Ret 45 d1 /\
    ByteToSector 4 h 3840 d1 = Undefined d1.
Proof.
  eexists _, _, _, _, _. split; [vm_compute; reflexivity |].
  split; [vm_compute; reflexivity |].
  split; [vm_compute; reflexivity |].
  repeat split; vm_compute; reflexivity.
Qed.

Lemma ByteToSector_indirect_returns_nothing_witness :
  exists h fm1 d1,
    Allocate 4 formattedMap 3841 formatted = Ret (true, h, fm1) d1 /\
    ~ returns (ByteToSector 4 h 0 d1).
Proof.
  eexists _, _, _. split; [vm_compute; reflexivity |].
  apply (ByteToSector_indirect_returns_nothing (P := stock)).
  simpl. lia.
Defined.

(** ** Allocate under space pressure *)

Section AllocateShortOfHeaders.
Context {P : Platform}.

Lemma Allocate_S fuel fm fileSize :
  Allocate (S fuel) fm fileSize
  = let h := {| numBytes := fileSize;
                numSectors := divRoundUp fileSize SectorSize;
                dataSectors := dataSectors FileHeader_new |} in
    let slots := length (dataSectors h) in
    if Bitmap.NumClear fm <? numSectors h then ret (false, h, fm)
    else if fileSize >? MaxFileSize3 then
      do (h, freeMap) <-
         Allocate_children (Allocate fuel) MaxFileSize3 slots 0 fileSize h fm;
      ret (true, h, freeMap)
    else if fileSize >? MaxFileSize2 then
      do (h, freeMap) <-
         Allocate_children (Allocate fuel) MaxFileSize2 slots 0 fileSize h fm;
      ret (true, h, freeMap)
    else if fileSize >? MaxFileSize then
      do (h, freeMap) <-
         Allocate_children (Allocate fuel) MaxFileSize slots 0 fileSize h fm;
      ret (true, h, freeMap)
    else
      do (h, freeMap) <- Allocate_direct (Z.to_nat (numSectors h)) 0 h fm;
      ret (true, h, freeMap).
Proof. reflexivity. Qed.

Lemma Allocate_children_S alloc chunk slots i fileSize h fm :
  0 < fileSize ->
  Allocate_children alloc chunk (S slots) i fileSize h fm
  = let '(s, freeMap) := Bitmap.FindAndSet fm in
    do h <- storeSector h i s;
    do _ <- ASSERT (s >=? 0);
    do (ok, next, freeMap) <-
       alloc freeMap (if fileSize >? chunk then chunk else fileSize);
    do _ <- ASSERT ok;
    do _ <- FileHeader_WriteBack next s;
    Allocate_children alloc chunk slots (i + 1) (fileSize - chunk) h freeMap.
Proof.
  intros H. simpl. destruct (Z.gtb_spec fileSize 0); [reflexivity | lia].
Qed.

Hypothesis SectorSize_pos : 0 < SectorSize.
Hypothesis NumDirect_two : 2 <= NumDirect.
Hypothesis direct_span : MaxFileSize = NumDirect * SectorSize.
Hypothesis thresholds : MaxFileSize <= MaxFileSize2 /\ MaxFileSize2 <= MaxFileSize3.

(** C2, on the code: take a size up to one sector past the direct span.
    Its data needs [NumDirect + 1] sectors and its tree two more, one per
    child header.  The only check Allocate makes is against the data
    sectors; with that many clear sectors, or one more, the check passes and
    the call does not return FALSE: it takes a sector for the first child
    header and the [NumDirect] data sectors of that child, writes the child
    to that sector of the disk, and then stops on an assertion, when no
    sector is left for the second child header or for the second child's
    data. *)
Theorem Allocate_aborts_short_of_child_sectors fuel fm fileSize d :
  MaxFileSize < fileSize <= MaxFileSize + SectorSize ->
  fileSize <= MaxFileSize2 ->
  divRoundUp fileSize SectorSize <= Bitmap.NumClear fm
  < divRoundUp fileSize SectorSize + 2 ->
  divRoundUp fileSize SectorSize = NumDirect + 1 /\
  exists s child,
    Allocate (S (S fuel)) fm fileSize d
    = Abort {| headers := <[s := child]> (headers d); images := images d |} /\
    numBytes child = MaxFileSize /\ fm !! Z.to_nat s = Some false.
Proof.
  intros Hsize Hsize2 Hfree. destruct thresholds as [T12 T23].
  assert (Hn : divRoundUp fileSize SectorSize = NumDirect + 1).
  { unfold divRoundUp. apply quot_between; nia. }
  split; [exact Hn |].
  assert (Hchild : divRoundUp MaxFileSize SectorSize = NumDirect).
  { unfold divRoundUp. apply quot_between; nia. }
  assert (Hrest : divRoundUp (fileSize - MaxFileSize) SectorSize = 1).
  { unfold divRoundUp. apply quot_between; nia. }
  destruct (FindAndSet_some fm) as (s & EF & Hs & Ls & _ & N1); [lia |].
  assert (C1 : MaxFileSize <= MaxFileSize) by lia.
  assert (C3 : MaxFileSize <= MaxFileSize3) by lia.
  assert (C4 : 0 <= divRoundUp MaxFileSize SectorSize <= NumDirect) by lia.
  destruct (proj2 (Allocate_direct_span fuel (<[Z.to_nat s := true]> fm)
                     MaxFileSize d C1 T12 C3 C4))
    as (child & fm2 & EA & Hb & N2 & _ & _); [lia |].
  exists s, child. split; [| auto].
  set (d1 := {| headers := <[s := child]> (headers d); images := images d |}).
  assert (EB : forall fm3, Bitmap.NumClear fm3 = 0 ->
               exists h, Allocate (S fuel) fm3 (fileSize - MaxFileSize) d1
                         = Ret (false, h, fm3) d1).
  { intros fm3 H3.
    apply (Allocate_direct_span fuel fm3 (fileSize - MaxFileSize) d1); nia. }
  rewrite Allocate_S. unfold FileHeader_new. cbv zeta.
  cbn [numSectors dataSectors numBytes].
  revert EA EB. generalize (Allocate (S fuel)). intros alloc EA EB.
  destruct (Z.ltb_spec (Bitmap.NumClear fm) (divRoundUp fileSize SectorSize)); [lia |].
  destruct (Z.gtb_spec fileSize MaxFileSize3); [lia |].
  destruct (Z.gtb_spec fileSize MaxFileSize2); [lia |].
  destruct (Z.gtb_spec fileSize MaxFileSize) as [Hgt | ]; [| lia].
  rewrite length_replicate.
  destruct (Z.to_nat NumDirect) as [| [| slots]] eqn:EN; [lia | lia |].
  apply bind_eq_Abort.
  (* the first child *)
  rewrite Allocate_children_S by lia. rewrite EF.
  assert (R0 : 0 <= 0 < Z.of_nat (length (replicate (S (S slots)) (-1)))).
  { rewrite length_replicate. lia. }
  rewrite (bind_eq_Ret _ _ _ _ _ (storeSector_ok
             {| numBytes := fileSize; numSectors := divRoundUp fileSize SectorSize;
                dataSectors := replicate (S (S slots)) (-1) |} 0 s d R0)).
  cbn [numSectors dataSectors numBytes].
  destruct (Z.geb_spec s 0); [| lia].
  rewrite (bind_eq_Ret _ _ _ _ _ (eq_refl : ASSERT true d = Ret tt d)).
  destruct (Z.gtb_spec fileSize MaxFileSize); [| lia].
  rewrite (bind_eq_Ret _ _ _ _ _ EA).
  rewrite (bind_eq_Ret _ _ _ _ _ (eq_refl : ASSERT true d = Ret tt d)).
  rewrite (bind_eq_Ret _ _ _ _ _
             (eq_refl : FileHeader_WriteBack child s d = Ret tt d1)).
  (* the second child *)
  rewrite Allocate_children_S by lia.
  assert (R1 : 0 <= 0 + 1
               < Z.of_nat (length (<[Z.to_nat 0 := s]> (replicate (S (S slots)) (-1))))).
  { rewrite length_insert, length_replicate. lia. }
  destruct (Z.eq_dec (Bitmap.NumClear fm2) 0) as [Hnone | Hone].
  - (* no sector is left for its header *)
    rewrite FindAndSet_none by exact Hnone.
    rewrite (bind_eq_Ret _ _ _ _ _ (storeSector_ok
               {| numBytes := fileSize; numSectors := divRoundUp fileSize SectorSize;
                  dataSectors := <[Z.to_nat 0 := s]> (replicate (S (S slots)) (-1)) |}
               (0 + 1) (-1) d1 R1)).
    apply bind_eq_Abort. reflexivity.
  - (* one sector is left, for its header, and none for its data *)
    destruct (FindAndSet_some fm2) as (s2 & EF2 & Hs2 & _ & _ & N3); [lia |].
    rewrite EF2.
    rewrite (bind_eq_Ret _ _ _ _ _ (storeSector_ok
               {| numBytes := fileSize; numSectors := divRoundUp fileSize SectorSize;
                  dataSectors := <[Z.to_nat 0 := s]> (replicate (S (S slots)) (-1)) |}
               (0 + 1) s2 d1 R1)).
    destruct (Z.geb_spec s2 0); [| lia].
    rewrite (bind_eq_Ret _ _ _ _ _ (eq_refl : ASSERT true d1 = Ret tt d1)).
    destruct (Z.gtb_spec (fileSize - MaxFileSize) MaxFileSize); [nia |].
    destruct (EB (<[Z.to_nat s2 := true]> fm2)) as [h2 EB2]; [lia |].
    rewrite (bind_eq_Ret _ _ _ _ _ EB2).
    apply bind_eq_Abort. reflexivity.
Qed.

End AllocateShortOfHeaders.

(** On the distribution's constants: 3841 bytes, 31 clear sectors. *)
Lemma Allocate_aborts_short_of_child_sectors_witness :
  divRoundUp 3841 SectorSize = NumDirect + 1 /\
  exists s child,
    Allocate 4 crowdedMap 3841 formatted
    = Abort {| headers := <[s := child]> (headers formatted);
               images := images formatted |} /\
    numBytes child = MaxFileSize /\ crowdedMap !! Z.to_nat s = Some false.
Proof.
  apply (Allocate_aborts_short_of_child_sectors (P := stock)).
  - simpl; lia.
  - simpl; lia.
  - reflexivity.
  - simpl; lia.
  - simpl; lia.
  - simpl; lia.
  - vm_compute. split; [discriminate | reflexivity].
Defined.

(** There the child header goes to sector 993, which held none before. *)
Lemma Allocate_3841_with_31_clear :
  Bitmap.NumClear crowdedMap = 31 /\
  exists child,
    Allocate 4 crowdedMap 3841 formatted
    = Abort {| headers := <[993 := child]> (headers formatted);
               images := images formatted |} /\
    numBytes child = 3840 /\
    headers formatted !! 993 = None.
Proof.
  split; [vm_compute; reflexivity |].
  eexists. split; [vm_compute; reflexivity |].
  split; vm_compute; reflexivity.
Qed.

(** ** Create *)

Section CreateExisting.
Context {P : Platform}.



End CreateExisting.




Section CreateMissing.
Context {P : Platform}.

(** A component that is not found, whatever its place in the path: the
    turn files it as a plain file of [initialSize] bytes in the directory at
    hand and writes header, directory and free map to the disk. *)
Lemma Create_body_missing fuel initialSize count pch directory openFileDir d
      cur i fm :
  initialSize <= MaxFileSize -> initialSize <= MaxFileSize2 ->
  initialSize <= MaxFileSize3 ->
  0 <= divRoundUp initialSize SectorSize <= NumDirect ->
  currentDir count openFileDir = OpenFile cur ->
  Dir.FindIndex directory pch 0 = None ->
  Dir.freeSlot directory 0 = Some i ->
  freeMapOf d = Some fm ->
  divRoundUp initialSize SectorSize < Bitmap.NumClear fm ->
  let directory' :=
    <[i := {| inUse := true; isDir := false; sector := Bitmap.findClear 0 fm;
              name := pch |}]> directory in
  exists hdr fm',
    Create_body (S fuel) initialSize count pch directory openFileDir d
    = Ret (directory', openFileDir, true)
        {| headers := <[Bitmap.findClear 0 fm := hdr]> (headers d);
           images := <[FreeMapSector := BitmapImage fm']>
                       (<[cur := TableImage directory']> (images d)) |} /\
    0 <= Bitmap.findClear 0 fm /\
    fm !! Z.to_nat (Bitmap.findClear 0 fm) = Some false /\
    numBytes hdr = initialSize.
Proof.
  intros D1 D2 D3 Dn Hcur Hmiss Hslot Hfm Hroom directory'.
  destruct (FindAndSet_some fm) as (sec & EF & Hsec & Lsec & _ & N1); [lia |].
  assert (Esec : Bitmap.findClear 0 fm = sec).
  { unfold Bitmap.FindAndSet in EF.
    destruct (Bitmap.findClear 0 fm =? -1); injection EF as E _; lia. }
  subst directory'. rewrite Esec.
  destruct (proj2 (Allocate_direct_span fuel (<[Z.to_nat sec := true]> fm)
                     initialSize d D1 D2 D3 Dn))
    as (hdr & fm' & EA & Hb & _); [lia |].
  exists hdr, fm'. split; [| auto].
  unfold Create_body.
  revert EA. generalize (Allocate (S fuel)). intros alloc EA.
  assert (Hfind : Dir.Find directory pch = -1).
  { unfold Dir.Find. rewrite Hmiss. reflexivity. }
  assert (Hadd : Dir.Add directory pch sec
                 = (true, <[i := {| inUse := true; isDir := false;
                                     sector := sec; name := pch |}]> directory)).
  { unfold Dir.Add, Dir.addEntry. rewrite Hmiss, Hslot. reflexivity. }
  unfold freeMapOf in Hfm.
  destruct (images d !! 0) as [[b | t] |] eqn:I0; try discriminate.
  injection Hfm as ->.
  rewrite Hfind, Z.eqb_refl. cbn [negb].
  assert (Eload : PersistentBitmap_new freeMapFile d = Ret fm d).
  { unfold PersistentBitmap_new, freeMapFile, FreeMapSector. rewrite I0.
    reflexivity. }
  rewrite (bind_eq_Ret _ _ _ _ _ Eload). rewrite EF.
  destruct (Z.eqb_spec sec (-1)); [lia |].
  rewrite Hadd. cbn [negb].
  rewrite (bind_eq_Ret _ _ _ _ _ EA). cbn [negb].
  unfold currentDir in Hcur.
  destruct (count =? 0); rewrite Hcur; reflexivity.
Qed.

(** So, when the first of several components is missing from the root,
    Create goes on with the next component from a disk on which the first
    is filed as a plain file. *)
Lemma Create_first_missing fuel name initialSize junk d pch pch' rest i fm :
  initialSize <= MaxFileSize -> initialSize <= MaxFileSize2 ->
  initialSize <= MaxFileSize3 ->
  0 <= divRoundUp initialSize SectorSize <= NumDirect ->
  strtok name = pch :: pch' :: rest ->
  Dir.FindIndex (rootTable d) pch 0 = None ->
  Dir.freeSlot (rootTable d) 0 = Some i ->
  freeMapOf d = Some fm ->
  divRoundUp initialSize SectorSize < Bitmap.NumClear fm ->
  let sec := Bitmap.findClear 0 fm in
  let directory' :=
    <[i := {| inUse := true; isDir := false; sector := sec; name := pch |}]>
      (rootTable d) in
  exists d2,
    Create (S fuel) name initialSize junk d
    = Create_loop (S fuel) initialSize (0 + 1) pch' rest directory' (Wild junk) d2 /\
    rootTable d2 = directory' /\
    (exists hdr, headers d2 !! sec = Some hdr /\ numBytes hdr = initialSize) /\
    fm !! Z.to_nat sec = Some false.
Proof.
  intros D1 D2 D3 Dn Htoks Hmiss Hslot Hfm Hroom sec directory'.
  destruct (Create_body_missing fuel initialSize 0 pch (rootTable d) (Wild junk) d
              DirectorySector i fm D1 D2 D3 Dn eq_refl Hmiss Hslot Hfm Hroom)
    as (hdr & fm' & Ebody & Hsec & Lsec & Hb).
  fold sec in Ebody, Hsec, Lsec. fold directory' in Ebody.
  eexists. split; [| split; [| split]].
  - unfold Create. rewrite Htoks.
    rewrite (bind_eq_Ret _ _ _ _ _
               (eq_refl : Directory_FetchFrom (Dir.create NumDirEntries)
                            directoryFile d = Ret (rootTable d) d)).
    simpl Create_loop.
    rewrite (bind_eq_Ret _ _ _ _ _ Ebody). reflexivity.
  - unfold rootTable, fetchTable; simpl.
    unfold FreeMapSector, DirectorySector.
    rewrite lookup_insert_ne by lia. rewrite lookup_insert_eq. reflexivity.
  - exists hdr. simpl. rewrite lookup_insert_eq. auto.
  - exact Lsec.
Qed.

End CreateMissing.

(** C4, on the code.  When the first of two or more components is missing
    from the root directory (and the disk and the directory have room),
    Create does not stop: by the time it turns to the second component the
    disk holds a plain file named after the first.  With [x] missing from
    the root of a fresh disk, the first turn of [Create("/x/a.txt", 50)]
    files [x] (header in sector 13) and writes header, root directory and
    free map; the second turn writes a second header (sector 15) and then
    the directory through [openFileDir], which nothing has assigned.
    [Create("/x/x", 50)] returns FALSE with the same file [x] left in the
    root directory. *)
Theorem Create_missing_ancestor_becomes_file :
  (forall (P : Platform) fuel name initialSize junk d pch pch' rest i fm,
      initialSize <= MaxFileSize -> initialSize <= MaxFileSize2 ->
      initialSize <= MaxFileSize3 ->
      0 <= divRoundUp initialSize SectorSize <= NumDirect ->
      strtok name = pch :: pch' :: rest ->
      Dir.FindIndex (rootTable d) pch 0 = None ->
      Dir.freeSlot (rootTable d) 0 = Some i ->
      freeMapOf d = Some fm ->
      divRoundUp initialSize SectorSize < Bitmap.NumClear fm ->
      let sec := Bitmap.findClear 0 fm in
      let directory' :=
        <[i := {| inUse := true; isDir := false; sector := sec; name := pch |}]>
          (rootTable d) in
      exists d2,
        Create (S fuel) name initialSize junk d
        = Create_loop (S fuel) initialSize (0 + 1) pch' rest directory'
            (Wild junk) d2 /\
        rootTable d2 = directory' /\
        (exists hdr, headers d2 !! sec = Some hdr /\ numBytes hdr = initialSize) /\
        fm !! Z.to_nat sec = Some false) /\
  (forall junk,
    Dir.Find (rootTable formatted) "x" = -1 /\
    (exists d',
        Create 4 "/x/a.txt" 50 junk formatted = Undefined d' /\
        rootTable d' !! 0%nat
        = Some {| inUse := true; isDir := false; sector := 13; name := "x" |} /\
        Dir.names (rootTable d') = ["x"%string] /\
        option_map Bitmap.NumClear (freeMapOf d') = Some 1009 /\
        option_map numBytes (headers d' !! 13) = Some 50 /\
        option_map numBytes (headers d' !! 15) = Some 50) /\
    (exists d',
        Create 4 "/x/x" 50 junk formatted = Ret false d' /\
        Dir.names (rootTable d') = ["x"%string]) /\
    option_map Bitmap.NumClear (freeMapOf formatted) = Some 1011).
Proof.
  split.
  - intros P. apply @Create_first_missing.
  - intros junk.
    split; [vm_compute; reflexivity |].
    split; [eexists; split; [vm_compute; reflexivity |];
            repeat split; vm_compute; reflexivity |].
    split; [eexists; split; [vm_compute; reflexivity |]; vm_compute; reflexivity |].
    vm_compute; reflexivity.
Qed.

Lemma Create_missing_ancestor_becomes_file_witness :
  exists d2,
    Create 4 "/x/a.txt" 50 7 formatted
    = Create_loop 4 50 (0 + 1) "a.txt" []
        (<[0%nat := {| inUse := true; isDir := false;
                       sector := Bitmap.findClear 0 formattedMap; name := "x" |}]>
           (rootTable formatted)) (Wild 7) d2 /\
    rootTable d2
    = <[0%nat := {| inUse := true; isDir := false;
                    sector := Bitmap.findClear 0 formattedMap; name := "x" |}]>
        (rootTable formatted) /\
    (exists hdr, headers d2 !! Bitmap.findClear 0 formattedMap = Some hdr /\
                 numBytes hdr = 50) /\
    formattedMap !! Z.to_nat (Bitmap.findClear 0 formattedMap) = Some false.
Proof.
  refine (proj1 Create_missing_ancestor_becomes_file stock 3%nat "/x/a.txt"%string
            50 7 formatted "x"%string "a.txt"%string [] 0%nat formattedMap
            _ _ _ _ _ _ _ _ _).
  - simpl; lia.
  - simpl; lia.
  - simpl; lia.
  - vm_compute. split; discriminate.
  - vm_compute; reflexivity.
  - vm_compute; reflexivity.
  - vm_compute; reflexivity.
  - vm_compute; reflexivity.
  - vm_compute; reflexivity.
Defined.

(** ** Open *)

Section OpenResult.
Context {P : Platform}.

(** The loop hands back the pointer it started with or one it made with
    [new OpenFile]. *)
Lemma Open_loop_result d toks :
  forall directory openFileDir,
    Open_loop d toks directory openFileDir = openFileDir \/
    exists sec, Open_loop d toks directory openFileDir = OpenFile sec.
Proof.
  induction toks as [| pch toks IH]; intros directory openFileDir; simpl.
  - left; reflexivity.
  - destruct (Dir.Find directory pch >=? 0).
    + destruct (IH (fetchTable d directory (Dir.Find directory pch))
                   (OpenFile (Dir.Find directory pch))) as [E | [sec E]];
        right; eauto.
    + apply IH.
Qed.

(** A component that is not found is stepped over: the search goes on in
    the same directory with the pointer unchanged. *)
Lemma Open_loop_skip d pch toks directory openFileDir :
  Dir.Find directory pch < 0 ->
  Open_loop d (pch :: toks) directory openFileDir
  = Open_loop d toks directory openFileDir.
Proof.
  intros H. simpl. destruct (Z.geb_spec (Dir.Find directory pch) 0); [lia |].
  reflexivity.
Qed.

(** When every component is found, Open answers with the open file of the
    last one. *)
Lemma Open_loop_walk d toks :
  forall directory openFileDir sec,
    walk d directory toks = Some sec ->
    Open_loop d toks directory openFileDir = OpenFile sec.
Proof.
  induction toks as [| pch rest IH]; intros directory openFileDir sec H;
    [discriminate |].
  simpl in H. simpl Open_loop.
  destruct (Dir.Find directory pch >=? 0); [| discriminate].
  destruct rest as [| pch' rest].
  - injection H as <-. reflexivity.
  - apply IH. exact H.
Qed.

Lemma Open_walk d name junk sec :
  walk d (rootTable d) (strtok name) = Some sec ->
  Open d name junk = OpenFile sec.
Proof. apply Open_loop_walk. Qed.

End OpenResult.

(** C6, on the code: Open never answers NULL.  What it returns is the local
    [openFileDir]: the file of the last component that was found, or, when
    none was, the value that variable held unassigned.  On the disk that
    holds [/x/y/z], opening [/x/q] yields the open file of directory [/x],
    and opening [/q] yields that unassigned value. *)
Theorem Open_never_NULL :
  (forall (P : Platform) d name junk,
      Open d name junk = Wild junk \/ exists sec, Open d name junk = OpenFile sec) /\
  (forall junk,
      Dir.Find (fetchTable nested [] 13) "q" = -1 /\
      Open nested "/x" junk = OpenFile 13 /\
      Open nested "/x/q" junk = OpenFile 13 /\
      Dir.Find (rootTable nested) "q" = -1 /\
      Open nested "/q" junk = Wild junk).
Proof.
  split.
  - intros P d name junk. unfold Open. apply Open_loop_result.
  - intros junk. repeat split; vm_compute; reflexivity.
Qed.

(** ** Remove *)


(** On a header whose first [n] entries from [i] on are distinct sectors,
    all marked, the loop of Deallocate clears exactly those. *)
Lemma Deallocate_loop_ok n :
  forall i h fm d,
    0 <= i ->
    let l := take n (drop (Z.to_nat i) (dataSectors h)) in
    length l = n -> NoDup l ->
    (forall s, s ∈ l -> 0 <= s /\ fm !! Z.to_nat s = Some true) ->
    Deallocate_loop n i h fm d = Ret (clearAll l fm) d.
Proof.
  induction n as [| n IH]; intros i h fm d Hi l Hlen Hnd Hmarked.
  - reflexivity.
  - destruct (dataSectors h !! Z.to_nat i) as [s|] eqn:L.
    2:{ apply lookup_ge_None in L. subst l.
        rewrite drop_ge in Hlen by exact L. discriminate. }
    assert (El : l = s :: take n (drop (Z.to_nat (i + 1)) (dataSectors h))).
    { subst l. rewrite (drop_S _ _ _ L). simpl.
      replace (Z.to_nat (i + 1)) with (S (Z.to_nat i)) by lia. reflexivity. }
    clearbody l. subst l.
    apply NoDup_cons in Hnd as [Hnotin Hnd].
    destruct (Hmarked s) as [Hs Ms]; [left |].
    simpl. unfold bind at 1. unfold loadSector.
    destruct (Z.leb_spec 0 i); [| lia]. rewrite L. simpl.
    assert (R : Bitmap.inRange s fm = true).
    { apply lookup_lt_Some in Ms. unfold Bitmap.inRange.
      apply andb_true_iff. split; [lia | apply Z.ltb_lt; lia]. }
    unfold bind at 1. unfold Bitmap.Test, Bitmap.Clear. rewrite R, Ms. simpl.
    apply IH.
    + lia.
    + simpl in Hlen. lia.
    + exact Hnd.
    + intros s' Hin. destruct (Hmarked s') as [Hs' Ms']; [right; exact Hin |].
      split; [exact Hs' |].
      rewrite list_lookup_insert_ne; [exact Ms' |].
      intros E. apply Hnotin. replace s with s' by lia. exact Hin.
Qed.

Lemma clearAll_cons s l (fm : Bitmap.t) :
  clearAll (s :: l) fm = clearAll l (<[Z.to_nat s := false]> fm).
Proof. reflexivity. Qed.

Lemma clearAll_insert_commute l : forall (fm : Bitmap.t) (k : nat),
  (forall s, s ∈ l -> Z.to_nat s <> k) ->
  clearAll l (<[k := false]> fm) = <[k := false]> (clearAll l fm).
Proof.
  induction l as [| s l IH]; intros fm k Hne; [reflexivity |].
  rewrite !clearAll_cons.
  rewrite (list_insert_insert_ne _ _ _ _ _ (Hne s ltac:(left))).
  apply IH. intros s' Hs'. apply Hne. right. exact Hs'.
Qed.

(** The sectors the [for] loop has put into the header are distinct, were
    clear before and are set after; clearing them again gives the free map
    back. *)
Lemma Allocate_direct_undo n :
  forall i h fm d h' fm' d',
    0 <= i ->
    Allocate_direct n i h fm d = Ret (h', fm') d' ->
    let l := take n (drop (Z.to_nat i) (dataSectors h')) in
    d' = d /\
    take (Z.to_nat i) (dataSectors h') = take (Z.to_nat i) (dataSectors h) /\
    length l = n /\ NoDup l /\
    (forall s, s ∈ l ->
        0 <= s /\ fm !! Z.to_nat s = Some false /\ fm' !! Z.to_nat s = Some true) /\
    (forall k : nat, fm !! k = Some true -> fm' !! k = Some true) /\
    clearAll l fm' = fm.
Proof.
  induction n as [| n IH]; intros i h fm d h' fm' d' Hi H; simpl in H.
  - injection H as <- <- <-. simpl. rewrite take_0.
    split; [reflexivity |]. split; [reflexivity |]. split; [reflexivity |].
    split; [apply NoDup_nil_2 |].
    split; [intros s Hs; apply elem_of_nil in Hs; contradiction |].
    split; [auto | reflexivity].
  - destruct (Bitmap.FindAndSet fm) as [s fm1] eqn:EF.
    peel H. apply storeSector_Ret in Hm as (-> & Hrange & ->).
    peel H. apply ASSERT_Ret in Hm as (Hs & ->). apply Z.geb_le in Hs.
    destruct (FindAndSet_spec _ _ _ EF) as [(-> & _) | (_ & Ls & _ & -> & _)]; [lia |].
    apply IH in H as (-> & Hpre & Hlen & Hnd & Hin & Hkeep & Hclear); [| lia].
    simpl in Hpre.
    replace (Z.to_nat (i + 1)) with (S (Z.to_nat i)) in * by lia.
    set (l' := take n (drop (S (Z.to_nat i)) (dataSectors h'))) in *.
    assert (Li : dataSectors h' !! Z.to_nat i = Some s).
    { assert (E : take (S (Z.to_nat i)) (dataSectors h') !! Z.to_nat i = Some s).
      { rewrite Hpre. rewrite lookup_take_lt by lia.
        apply list_lookup_insert_eq. lia. }
      rewrite lookup_take_lt in E by lia. exact E. }
    assert (El : take (S n) (drop (Z.to_nat i) (dataSectors h')) = s :: l').
    { rewrite (drop_S _ _ _ Li). reflexivity. }
    assert (Hnotin : s ∉ l').
    { intros Hs'. destruct (Hin s Hs') as (_ & F & _).
      rewrite list_lookup_insert_eq in F by (apply lookup_lt_Some in Ls; exact Ls).
      discriminate. }
    cbv zeta. rewrite El.
    split; [reflexivity |].
    split.
    { apply (f_equal (take (Z.to_nat i))) in Hpre.
      rewrite !take_take in Hpre.
      replace (Z.to_nat i `min` S (Z.to_nat i))%nat with (Z.to_nat i) in Hpre by lia.
      rewrite Hpre. apply take_insert_ge. lia. }
    split; [simpl; lia |].
    split; [apply NoDup_cons; auto |].
    split.
    { intros s' Hs'. apply elem_of_cons in Hs' as [-> | Hs'].
      - split; [lia |]. split; [exact Ls |].
        apply Hkeep. apply list_lookup_insert_eq.
        apply lookup_lt_Some in Ls; exact Ls.
      - destruct (Hin s' Hs') as (H0 & F & T). split; [exact H0 |].
        split; [| exact T].
        destruct (decide (Z.to_nat s = Z.to_nat s')) as [E | Hne].
        + rewrite E in F.
          rewrite list_lookup_insert_eq in F; [discriminate |].
          apply lookup_lt_Some in T. rewrite <- E.
          apply lookup_lt_Some in Ls; exact Ls.
        + rewrite list_lookup_insert_ne in F by exact Hne. exact F. }
    split.
    { intros k Hk. apply Hkeep.
      destruct (decide (Z.to_nat s = k)) as [<- | Hne]; [congruence |].
      rewrite list_lookup_insert_ne by exact Hne. exact Hk. }
    rewrite clearAll_cons, clearAll_insert_commute.
    + rewrite Hclear. rewrite list_insert_insert_eq. apply list_insert_id. exact Ls.
    + intros s' Hs' E. destruct (Hin s' Hs') as (H0 & _).
      apply Hnotin. replace s with s' by lia. exact Hs'.
Qed.

(** For a size within the direct span Deallocate undoes Allocate: it hands
    back the free map as it was before the allocation. *)
Lemma Deallocate_undoes_direct_Allocate `{P : Platform} fuel fm fileSize d h fm' d' :
  fileSize <= MaxFileSize -> fileSize <= MaxFileSize2 -> fileSize <= MaxFileSize3 ->
  Allocate (S fuel) fm fileSize d = Ret (true, h, fm') d' ->
  d' = d /\ Deallocate h fm' d = Ret fm d.
Proof.
  intros H1 H2 H3 HA. rewrite Allocate_S in HA. cbv zeta in HA.
  cbn [numSectors dataSectors numBytes] in HA.
  destruct (Bitmap.NumClear fm <? divRoundUp fileSize SectorSize);
    [discriminate |].
  destruct (Z.gtb_spec fileSize MaxFileSize3); [lia |].
  destruct (Z.gtb_spec fileSize MaxFileSize2); [lia |].
  destruct (Z.gtb_spec fileSize MaxFileSize); [lia |].
  peel HA. destruct a as [h1 fm1]. injection HA as <- <- <-.
  pose proof (Allocate_direct_shape _ _ _ _ _ _ _ _ Hm) as (_ & Hn & _).
  cbn [numSectors] in Hn.
  apply Allocate_direct_undo in Hm as (-> & _ & Hlen & Hnd & Hin & _ & Hclear);
    [| lia].
  split; [reflexivity |].
  unfold Deallocate. rewrite Hn.
  rewrite Deallocate_loop_ok; try assumption; [| lia |].
  - rewrite Hclear. reflexivity.
  - intros s Hs. destruct (Hin s Hs) as (Hpos & _ & T). auto.
Qed.

Section RemoveRoot.
Context {P : Platform}.


End RemoveRoot.



(** What Remove does on other arguments, on the distribution's constants:
    the name under which Create filed [/a.txt] is [a.txt], so the path
    itself is not found; and a directory entry of the root is removed like
    any other entry, its content left behind. *)
Lemma Remove_examples :
  Remove "/a.txt" withA = Ret false withA /\
  Remove "/d/a" nestedFile = Ret false nestedFile /\
  exists d', Remove "x" nested = Ret true d' /\
             Dir.names (rootTable d') = [] /\
             Dir.names (fetchTable d' [] 13) = ["y"%string].
Proof.
  split; [vm_compute; reflexivity |].
  split; [vm_compute; reflexivity |].
  eexists. split; [vm_compute; reflexivity |].
  split; vm_compute; reflexivity.
Qed.

(** ** CreateDir *)

Section CreateDirSteps.
Context {P : Platform}.

(** The walk over a path is the walk over its first part followed by the
    walk over the rest, resumed where the first one stopped. *)
Lemma CreateDir_loop_app fuel pre :
  forall post count openFileDir success d,
    CreateDir_loop fuel count (pre ++ post) openFileDir success d
    = (do (openFileDir', success') <-
          CreateDir_loop fuel count pre openFileDir success;
       CreateDir_loop fuel (count + Z.of_nat (length pre)) post
         openFileDir' success') d.
Proof.
  induction pre as [| pch pre IH]; intros post count openFileDir success d.
  - simpl. unfold bind, ret. rewrite Z.add_0_r. reflexivity.
  - simpl length. simpl CreateDir_loop. unfold bind.
    destruct (CreateDir_body fuel count pch openFileDir d)
      as [[ofd1 s1] d1 | | |]; try reflexivity.
    rewrite IH. unfold bind.
    replace (count + 1 + Z.of_nat (length pre))
      with (count + Z.of_nat (S (length pre))) by lia.
    reflexivity.
Qed.

(** A component that is present: the turn writes nothing and moves on to
    the file the entry names. *)
Lemma CreateDir_body_found fuel count pch openFileDir d cur :
  currentDir count openFileDir = OpenFile cur ->
  let directory := fetchTable d (Dir.create NumDirEntries) cur in
  Dir.Find directory pch <> -1 ->
  CreateDir_body fuel count pch openFileDir d
  = Ret (OpenFile (Dir.Find directory pch), false) d.
Proof.
  intros Hcur directory Hfound. unfold CreateDir_body.
  unfold currentDir in Hcur.
  destruct (count =? 0); rewrite Hcur; unfold bind at 1; simpl;
    fold directory;
    (destruct (Z.eqb_spec (Dir.Find directory pch) (-1)); [contradiction |]);
    reflexivity.
Qed.

Hypothesis dir_direct :
  DirectoryFileSize <= MaxFileSize /\ DirectoryFileSize <= MaxFileSize2 /\
  DirectoryFileSize <= MaxFileSize3.
Hypothesis dir_sectors : 0 <= divRoundUp DirectoryFileSize SectorSize <= NumDirect.

(** A component that is missing, in a directory with a free slot, on a
    disk with room for one header and the sectors of one directory: the
    disk the turn leaves. *)
Lemma CreateDir_body_missing fuel count pch openFileDir d cur i fm :
  currentDir count openFileDir = OpenFile cur ->
  let directory := fetchTable d (Dir.create NumDirEntries) cur in
  Dir.FindIndex directory pch 0 = None ->
  Dir.freeSlot directory 0 = Some i ->
  freeMapOf d = Some fm ->
  divRoundUp DirectoryFileSize SectorSize < Bitmap.NumClear fm ->
  exists sec hdr fm',
    CreateDir_body (S fuel) count pch openFileDir d
    = Ret (OpenFile sec, true)
        {| headers := <[sec := hdr]> (headers d);
           images :=
             <[sec := TableImage (Dir.create NumDirEntries)]>
               (<[FreeMapSector := BitmapImage fm']>
                  (<[cur := TableImage
                              (<[i := {| inUse := true; isDir := true;
                                         sector := sec; name := pch |}]>
                                 directory)]>
                     (images d))) |} /\
    0 <= sec /\ fm !! Z.to_nat sec = Some false /\
    (forall j : nat, (j < Z.to_nat sec)%nat -> fm !! j = Some true) /\
    numBytes hdr = DirectoryFileSize /\
    Bitmap.NumClear fm'
    = Bitmap.NumClear fm - 1 - divRoundUp DirectoryFileSize SectorSize.
Proof.
  intros Hcur directory Hmiss Hslot Hfm Hroom.
  destruct dir_direct as (D1 & D2 & D3).
  destruct (FindAndSet_some fm) as (sec & EF & Hsec & Lsec & Hlow & N1); [lia |].
  destruct (proj2 (Allocate_direct_span fuel (<[Z.to_nat sec := true]> fm)
                     DirectoryFileSize d D1 D2 D3 dir_sectors))
    as (hdr & fm' & EA & Hb & N2 & _ & _); [lia |].
  exists sec, hdr, fm'.
  split; [| repeat split; auto; lia].
  unfold CreateDir_body.
  revert EA. generalize (Allocate (S fuel)). intros alloc EA.
  unfold currentDir in Hcur.
  assert (Hfind : Dir.Find directory pch = -1).
  { unfold Dir.Find. rewrite Hmiss. reflexivity. }
  assert (Hadd : Dir.AddDir directory pch sec
                 = (true, <[i := {| inUse := true; isDir := true;
                                     sector := sec; name := pch |}]> directory)).
  { unfold Dir.AddDir, Dir.addEntry. rewrite Hmiss, Hslot. reflexivity. }
  unfold freeMapOf in Hfm.
  destruct (images d !! 0) as [[b | t] |] eqn:I0; try discriminate.
  injection Hfm as ->.
  destruct (count =? 0); rewrite Hcur; unfold bind at 1; simpl;
    fold directory; rewrite Hfind; simpl;
    unfold bind at 1; simpl; change FreeMapSector with 0; rewrite I0;
    rewrite EF; (destruct (Z.eqb_spec sec (-1)); [lia |]);
    rewrite Hadd; simpl;
    unfold bind at 1; rewrite EA; simpl; reflexivity.
Qed.

End CreateDirSteps.

(** Scenario C of the specification, on the distribution's constants: the
    call makes [x] in the root (header in sector 13), [y] in [x] (sector 24)
    and [z] in [y] (sector 35), each entry marked as a directory, and [z]
    is empty. *)
Lemma CreateDir_three_levels :
  (forall junk junkSuccess,
      CreateDir 4 "/x/y/z" junk junkSuccess formatted = Ret true nested) /\
  Dir.entries (rootTable nested)
  = [ {| inUse := true; isDir := true; sector := 13; name := "x" |} ] /\
  Dir.entries (fetchTable nested [] 13)
  = [ {| inUse := true; isDir := true; sector := 24; name := "y" |} ] /\
  Dir.entries (fetchTable nested [] 24)
  = [ {| inUse := true; isDir := true; sector := 35; name := "z" |} ] /\
  images nested !! 35 = Some (TableImage (Dir.create NumDirEntries)).
Proof.
  split; [intros junk junkSuccess; vm_compute; reflexivity |].
  repeat split; vm_compute; reflexivity.
Qed.

(** C8: wherever along the path the walk of CreateDir stands, in the root
    or in a directory it found or made on the way, a component missing from
    the current directory is created there as a directory: a header sector
    is taken (the lowest clear one), the entry is linked into the current
    directory, which is written back, and the new, empty directory is
    written to its own file right away; the walk then goes on inside it with
    the rest of the path.  This needs a free slot in the current directory
    and room on the disk for a header and a directory's sectors.  On an empty
    root [CreateDir("/x/y/z")] makes three nested directory entries. *)
Theorem CreateDir_makes_missing_components :
  (forall (P : Platform) fuel pre pch post junk junkSuccess d
          openFileDir success d1 cur i fm,
      DirectoryFileSize <= MaxFileSize /\ DirectoryFileSize <= MaxFileSize2 /\
      DirectoryFileSize <= MaxFileSize3 ->
      0 <= divRoundUp DirectoryFileSize SectorSize <= NumDirect ->
      CreateDir_loop (S fuel) 0 pre (Wild junk) junkSuccess d
      = Ret (openFileDir, success) d1 ->
      currentDir (Z.of_nat (length pre)) openFileDir = OpenFile cur ->
      let directory := fetchTable d1 (Dir.create NumDirEntries) cur in
      Dir.FindIndex directory pch 0 = None ->
      Dir.freeSlot directory 0 = Some i ->
      freeMapOf d1 = Some fm ->
      divRoundUp DirectoryFileSize SectorSize < Bitmap.NumClear fm ->
      0 < cur -> fm !! 0%nat = Some true -> fm !! Z.to_nat cur = Some true ->
      exists sec fm' d2,
        CreateDir_loop (S fuel) 0 (pre ++ [pch]) (Wild junk) junkSuccess d
        = Ret (OpenFile sec, true) d2 /\
        CreateDir_loop (S fuel) 0 (pre ++ pch :: post) (Wild junk) junkSuccess d
        = CreateDir_loop (S fuel) (Z.of_nat (length pre) + 1) post
            (OpenFile sec) true d2 /\
        0 <= sec /\ fm !! Z.to_nat sec = Some false /\
        (forall j : nat, (j < Z.to_nat sec)%nat -> fm !! j = Some true) /\
        dirCreated d2 cur directory i pch sec fm' /\
        Bitmap.NumClear fm'
        = Bitmap.NumClear fm - 1 - divRoundUp DirectoryFileSize SectorSize) /\
  ((forall junk junkSuccess,
       CreateDir 4 "/x/y/z" junk junkSuccess formatted = Ret true nested) /\
   Dir.entries (rootTable nested)
   = [ {| inUse := true; isDir := true; sector := 13; name := "x" |} ] /\
   Dir.entries (fetchTable nested [] 13)
   = [ {| inUse := true; isDir := true; sector := 24; name := "y" |} ] /\
   Dir.entries (fetchTable nested [] 24)
   = [ {| inUse := true; isDir := true; sector := 35; name := "z" |} ] /\
   images nested !! 35 = Some (TableImage (Dir.create NumDirEntries))).
Proof.
  split; [| exact CreateDir_three_levels].
  intros P fuel pre pch post junk junkSuccess d openFileDir success d1 cur i fm
         Hdirect Hsectors Hpre Hcur directory Hmiss Hslot Hfm Hroom
         Hcur0 Hfm0 Hfmcur.
  destruct (CreateDir_body_missing Hdirect Hsectors fuel (Z.of_nat (length pre))
              pch openFileDir d1 cur i fm Hcur Hmiss Hslot Hfm Hroom)
    as (sec & hdr & fm' & Ebody & Hsec & Lsec & Hlow & Hbytes & Hclear).
  fold directory in Ebody.
  assert (Hne0 : sec <> 0).
  { intros E. rewrite E in Lsec. change (Z.to_nat 0) with 0%nat in Lsec.
    rewrite Hfm0 in Lsec. discriminate. }
  assert (Hnecur : sec <> cur).
  { intros E. rewrite E in Lsec. rewrite Hfmcur in Lsec. discriminate. }
  eexists sec, fm', _.
  split.
  { rewrite CreateDir_loop_app. unfold bind at 1. rewrite Hpre. simpl.
    unfold bind at 1. rewrite Z.add_0_l, Ebody. reflexivity. }
  split.
  { rewrite CreateDir_loop_app. unfold bind at 1. rewrite Hpre.
    simpl CreateDir_loop. unfold bind at 1. rewrite Z.add_0_l, Ebody.
    reflexivity. }
  repeat split; try assumption.
  - unfold fetchTable; simpl.
    rewrite lookup_insert_ne by exact Hnecur.
    rewrite lookup_insert_ne by (unfold FreeMapSector; lia).
    rewrite lookup_insert_eq. reflexivity.
  - exists hdr. simpl. rewrite lookup_insert_eq. auto.
  - simpl. apply lookup_insert_eq.
  - unfold freeMapOf; simpl.
    rewrite lookup_insert_ne by exact Hne0.
    unfold FreeMapSector. rewrite lookup_insert_eq. reflexivity.
Qed.

Lemma CreateDir_makes_missing_components_witness :
  let d1 := diskOf (CreateDir_loop 4 0 ["x"%string] (Wild 0) false formatted) in
  let fm := default [] (freeMapOf d1) in
  let directory := fetchTable d1 (Dir.create NumDirEntries) 13 in
  exists sec fm' d2,
    CreateDir_loop 4 0 (["x"%string] ++ ["y"%string]) (Wild 0) false formatted
    = Ret (OpenFile sec, true) d2 /\
    CreateDir_loop 4 0 (["x"%string] ++ "y"%string :: ["z"%string]) (Wild 0) false
      formatted
    = CreateDir_loop 4 (Z.of_nat (length ["x"%string]) + 1) ["z"%string]
        (OpenFile sec) true d2 /\
    0 <= sec /\ fm !! Z.to_nat sec = Some false /\
    (forall j : nat, (j < Z.to_nat sec)%nat -> fm !! j = Some true) /\
    dirCreated d2 13 directory 0 "y" sec fm' /\
    Bitmap.NumClear fm'
    = Bitmap.NumClear fm - 1 - divRoundUp DirectoryFileSize SectorSize.
Proof.
  intros d1 fm directory.
  refine (proj1 CreateDir_makes_missing_components stock 3%nat
            ["x"%string] "y"%string ["z"%string] 0 false formatted
            (OpenFile 13) true d1 13 0%nat fm _ _ _ _ _ _ _ _ _ _ _).
  - vm_compute. repeat split; discriminate.
  - vm_compute. repeat split; discriminate.
  - vm_compute; reflexivity.
  - vm_compute; reflexivity.
  - vm_compute; reflexivity.
  - vm_compute; reflexivity.
  - vm_compute; reflexivity.
  - vm_compute; reflexivity.
  - vm_compute; reflexivity.
  - vm_compute; reflexivity.
  - vm_compute; reflexivity.
Defined.

(** ** The table of open files *)

Lemma tableLoad_Some t id p :
  0 <= id -> t !! Z.to_nat id = Some p -> tableLoad id t = Ret p t.
Proof.
  intros Hid L. unfold tableLoad.
  destruct (Z.leb_spec 0 id); [| lia]. rewrite L. reflexivity.
Qed.

Lemma tableStore_Some t id p q :
  0 <= id -> t !! Z.to_nat id = Some q ->
  tableStore id p t = Ret tt (<[Z.to_nat id := p]> t).
Proof.
  intros Hid L. apply lookup_lt_Some in L. unfold tableStore.
  destruct (Z.leb_spec 0 id); [| lia].
  destruct (Z.ltb_spec id (Z.of_nat (length t))); [| lia].
  reflexivity.
Qed.

(** One turn of the scan, on a slot that tests as non-null and on one that
    tests as null. *)
Lemma OpenId_scan_step_bound n fd file t q :
  0 <= fd <= 20 -> t !! Z.to_nat (fd + 1) = Some q -> isNull q = false ->
  OpenId_scan (S n) fd file t = OpenId_scan n (fd + 1) file t.
Proof.
  intros Hfd L Hnull. simpl OpenId_scan.
  destruct (Z.leb_spec fd 20); [| lia].
  assert (H1 : 0 <= fd + 1) by lia.
  unfold bind. rewrite (tableLoad_Some _ _ _ H1 L), Hnull. reflexivity.
Qed.

Lemma OpenId_scan_step_free n fd file t p :
  0 <= fd <= 20 -> t !! Z.to_nat (fd + 1) = Some p -> isNull p = true ->
  OpenId_scan (S n) fd file t = Ret (fd + 1) (<[Z.to_nat (fd + 1) := file]> t).
Proof.
  intros Hfd L Hnull. simpl OpenId_scan.
  destruct (Z.leb_spec fd 20); [| lia].
  assert (H1 : 0 <= fd + 1) by lia.
  unfold bind. rewrite (tableLoad_Some _ _ _ H1 L), Hnull.
  rewrite (tableStore_Some _ _ _ _ H1 L). reflexivity.
Qed.

(** The scan stops at the first slot after [fd] that tests as null, and
    puts the file there. *)
Lemma OpenId_scan_lowest file t m :
  forall n fd,
    0 <= fd -> fd + 1 + Z.of_nat m <= 20 -> (m < n)%nat ->
    (forall j, fd < j < fd + 1 + Z.of_nat m -> bound t j) ->
    free t (fd + 1 + Z.of_nat m) ->
    OpenId_scan n fd file t
    = Ret (fd + 1 + Z.of_nat m) (<[Z.to_nat (fd + 1 + Z.of_nat m) := file]> t).
Proof.
  induction m as [| m IH]; intros n fd Hfd Hk Hn Hbound Hfree;
    (destruct n as [| n]; [lia |]).
  - replace (fd + 1 + Z.of_nat 0) with (fd + 1) in * by lia.
    destruct Hfree as (p & L & Hnull).
    apply (OpenId_scan_step_free n fd file t p); [lia | exact L | exact Hnull].
  - destruct (Hbound (fd + 1)) as (q & L & Hnull); [lia |].
    rewrite (OpenId_scan_step_bound n fd file t q); [| lia | exact L | exact Hnull].
    replace (fd + 1 + Z.of_nat (S m)) with (fd + 1 + 1 + Z.of_nat m) in * by lia.
    apply IH; try lia; [| exact Hfree].
    intros j Hj. apply Hbound. lia.
Qed.

(** With every slot up to 20 bound the scan leaves with [fd = 21], after
    reading the slot of index 21. *)
Lemma OpenId_scan_exhausted file t m :
  forall n fd,
    0 <= fd -> fd + Z.of_nat m = 20 -> (m < n)%nat ->
    (forall j, fd < j <= 20 -> bound t j) ->
    (OpenId_scan n fd file t = Undefined t /\ (length t <= 21)%nat) \/
    (exists t', OpenId_scan n fd file t = Ret 21 t' /\ (21 < length t)%nat).
Proof.
  induction m as [| m IH]; intros n fd Hfd Hk Hn Hbound;
    (destruct n as [| n]; [lia |]).
  - replace fd with 20 by lia.
    destruct (t !! 21%nat) as [p|] eqn:L.
    + right. pose proof (lookup_lt_Some _ _ _ L) as Hlt.
      destruct (isNull p) eqn:Hnull.
      * rewrite (OpenId_scan_step_free n 20 file t p); [| lia | exact L | exact Hnull].
        eexists; split; [reflexivity | exact Hlt].
      * rewrite (OpenId_scan_step_bound n 20 file t p); [| lia | exact L | exact Hnull].
        destruct n; simpl; (eexists; split; [reflexivity | exact Hlt]).
    + left. split; [| apply lookup_ge_None in L; exact L].
      simpl OpenId_scan. unfold bind, tableLoad.
      change (Z.to_nat (20 + 1)) with 21%nat. rewrite L. reflexivity.
  - destruct (Hbound (fd + 1)) as (q & L & Hnull); [lia |].
    rewrite (OpenId_scan_step_bound n fd file t q); [| lia | exact L | exact Hnull].
    apply IH; try lia.
    intros j Hj. apply Hbound. lia.
Qed.

(** A scan that returns an id up to 20 has bound the file to that id, the
    first one after [fd] whose slot tested as null. *)
Lemma OpenId_scan_Ret file n :
  forall fd t fd' t',
    0 <= fd ->
    OpenId_scan n fd file t = Ret fd' t' -> fd' <= 20 ->
    fd < fd' /\ t' = <[Z.to_nat fd' := file]> t /\ free t fd' /\
    forall j, fd < j < fd' -> bound t j.
Proof.
  induction n as [| n IH]; intros fd t fd' t' Hfd H Hle; simpl in H.
  - destruct (Z.leb_spec fd 20); [discriminate |].
    injection H as <- _. lia.
  - destruct (Z.leb_spec fd 20); [| injection H as <- _; lia].
    peel H. unfold tableLoad in Hm.
    destruct (Z.leb_spec 0 (fd + 1)); [| discriminate].
    destruct (t !! Z.to_nat (fd + 1)) as [p|] eqn:L; [| discriminate].
    injection Hm as <- <-.
    destruct (isNull p) eqn:Hnull.
    + peel H. assert (Hpos : 0 <= fd + 1) by lia.
      rewrite (tableStore_Some _ _ _ _ Hpos L) in Hm.
      injection Hm as _ <-. injection H as <- <-.
      split; [lia |]. split; [reflexivity |].
      split; [exists p; auto |]. intros j Hj; lia.
    + apply IH in H as (Hlt & -> & Hfree & Hbound); [| lia | lia].
      split; [lia |]. split; [reflexivity |]. split; [exact Hfree |].
      intros j Hj. destruct (decide (j = fd + 1)) as [-> | Hne].
      * exists p. auto.
      * apply Hbound. lia.
Qed.


Section OpenIdFacts.
Context {P : Platform}.

Lemma OpenId_lowest d name junk t k :
  1 <= k <= 20 -> free t k -> (forall j, 1 <= j < k -> bound t j) ->
  OpenId d name junk t = Ret k (<[Z.to_nat k := Open d name junk]> t).
Proof.
  intros Hk Hfree Hbound. unfold OpenId.
  replace k with (0 + 1 + Z.of_nat (Z.to_nat (k - 1))) in * by lia.
  unfold bind at 1.
  rewrite (OpenId_scan_lowest _ t (Z.to_nat (k - 1)) 21 0); try lia;
    try assumption.
  - unfold bind, ASSERT.
    destruct (Z.leb_spec (0 + 1 + Z.of_nat (Z.to_nat (k - 1))) 20); [| lia].
    reflexivity.
  - intros j Hj. apply Hbound. lia.
Qed.

Lemma OpenId_exhausted d name junk t :
  (forall j, 1 <= j <= 20 -> bound t j) ->
  ~ returns (OpenId d name junk t) /\
  ((21 < length t)%nat -> exists t', OpenId d name junk t = Abort t').
Proof.
  intros Hbound. unfold OpenId. unfold bind at 1 3.
  destruct (OpenId_scan_exhausted (Open d name junk) t 20 21 0)
    as [[E Hlen] | (t' & E & Hlen)]; try lia.
  - intros j Hj. apply Hbound. lia.
  - rewrite E. split; [intros [] | intros; lia].
  - rewrite E. split; [intros [] | intros _; exists t'; reflexivity].
Qed.

Lemma OpenId_Ret d name junk t fd t' :
  OpenId d name junk t = Ret fd t' ->
  1 <= fd <= 20 /\ free t fd /\ (forall j, 1 <= j < fd -> bound t j) /\
  t' = <[Z.to_nat fd := Open d name junk]> t /\
  t' !! 0%nat = t !! 0%nat.
Proof.
  intros H. unfold OpenId in H. peel H. peel H.
  apply ASSERT_Ret in Hm0 as [Hle ->]. injection H as <- <-.
  apply Z.leb_le in Hle.
  apply OpenId_scan_Ret in Hm as (Hlt & -> & Hfree & Hbound); [| lia | exact Hle].
  split; [lia |]. split; [exact Hfree |].
  split; [intros j Hj; apply Hbound; lia |].
  split; [reflexivity |].
  apply list_lookup_insert_ne. lia.
Qed.

End OpenIdFacts.

(** kclose on a bound slot empties it, so that the id can be handed out
    again. *)
Lemma kclose_bound t id :
  0 <= id -> bound t id ->
  kclose id t = Ret 1 (<[Z.to_nat id := NULL]> t) /\
  free (<[Z.to_nat id := NULL]> t) id.
Proof.
  intros Hid (q & L & Hnull). unfold kclose.
  unfold bind at 1. rewrite (tableLoad_Some _ _ _ Hid L). rewrite Hnull.
  unfold bind. rewrite (tableStore_Some _ _ _ _ Hid L).
  split; [reflexivity |].
  exists NULL. split; [| reflexivity].
  apply list_lookup_insert_eq. apply lookup_lt_Some in L. exact L.
Qed.



(** C9: OpenId hands out the lowest id from 1 to 20 whose slot is empty and
    binds the opened file to it; an id it returns is always such an id, and
    slot 0 is never written.  With ids 1 to 20 all bound the call does not
    return: the scan ends with [fd = 21], having read the slot of that index
    (past the table when it has 21 entries), and [ASSERT(fd <= 20)] stops the
    kernel. *)
Theorem OpenId_lowest_free_id :
  forall (P : Platform) d name junk (t : OpenTable),
    (forall k, 1 <= k <= 20 -> free t k -> (forall j, 1 <= j < k -> bound t j) ->
        OpenId d name junk t = Ret k (<[Z.to_nat k := Open d name junk]> t)) /\
    (forall fd t',
        OpenId d name junk t = Ret fd t' ->
        1 <= fd <= 20 /\ free t fd /\ (forall j, 1 <= j < fd -> bound t j) /\
        t' = <[Z.to_nat fd := Open d name junk]> t /\
        t' !! 0%nat = t !! 0%nat) /\
    ((forall j, 1 <= j <= 20 -> bound t j) ->
        ~ returns (OpenId d name junk t) /\
        ((21 < length t)%nat -> exists t', OpenId d name junk t = Abort t')).
Proof.
  intros P d name junk t. split; [| split].
  - intros k. apply OpenId_lowest.
  - intros fd t'. apply OpenId_Ret.
  - apply OpenId_exhausted.
Qed.

Lemma OpenId_lowest_free_id_witness :
  OpenId nested "/x/y" 0 oneOpen
  = Ret 2 (<[Z.to_nat 2 := Open nested "/x/y" 0]> oneOpen) /\
  (1 <= 2 <= 20 /\ free oneOpen 2 /\ (forall j, 1 <= j < 2 -> bound oneOpen j) /\
   <[Z.to_nat 2 := Open nested "/x/y" 0]> oneOpen
   = <[Z.to_nat 2 := Open nested "/x/y" 0]> oneOpen /\
   <[Z.to_nat 2 := Open nested "/x/y" 0]> oneOpen !! 0%nat = oneOpen !! 0%nat) /\
  (~ returns (OpenId nested "/x/y" 0 allOpen) /\
   ((21 < length allOpen)%nat ->
    exists t', OpenId nested "/x/y" 0 allOpen = Abort t')).
Proof.
  assert (E : OpenId nested "/x/y" 0 oneOpen
              = Ret 2 (<[Z.to_nat 2 := Open nested "/x/y" 0]> oneOpen)).
  { apply (proj1 (OpenId_lowest_free_id stock nested "/x/y"%string 0 oneOpen) 2).
    - lia.
    - exists NULL. split; reflexivity.
    - intros j Hj. assert (j = 1) as -> by lia.
      exists (OpenFile 13). split; reflexivity. }
  split; [exact E |]. split.
  - exact (proj1 (proj2 (OpenId_lowest_free_id stock nested "/x/y"%string 0 oneOpen))
             2 _ E).
  - apply (proj2 (proj2 (OpenId_lowest_free_id stock nested "/x/y"%string 0 allOpen))).
    intros j Hj. exists (OpenFile 13). split; [| reflexivity].
    unfold allOpen. destruct (Z.to_nat j) as [| k] eqn:Ek; [lia |].
    assert (Hk : (k < 21)%nat) by lia.
    exact (lookup_replicate_2 21 (OpenFile 13) k Hk).
Defined.



(** ** Allocate by the free space it finds *)

Section TreeSizeFacts.
Context {P : Platform}.

Hypothesis SectorSize_pos : 0 < SectorSize.

Lemma divRoundUp_pos a : 0 < a -> 0 < divRoundUp a SectorSize.
Proof.
  intros Ha. unfold divRoundUp. rewrite Z.quot_div_nonneg by lia.
  apply Z.div_str_pos. lia.
Qed.

Lemma divRoundUp_add a b :
  0 < a -> 0 < b ->
  divRoundUp (a + b) SectorSize <= divRoundUp a SectorSize + divRoundUp b SectorSize.
Proof.
  intros Ha Hb. unfold divRoundUp. rewrite !Z.quot_div_nonneg by lia.
  pose proof (Z.mul_succ_div_gt (a + SectorSize - 1) SectorSize SectorSize_pos).
  pose proof (Z.mul_succ_div_gt (b + SectorSize - 1) SectorSize SectorSize_pos).
  apply Z.lt_succ_r. apply Z.div_lt_upper_bound; [lia |]. nia.
Qed.

Lemma Allocate_children_by alloc sub chunk :
  allocatesBy alloc sub -> 0 < chunk ->
  forall slots i fileSize h fm d r,
    treeSectors_children sub chunk slots fileSize = Some r ->
    0 <= i -> (Z.to_nat i + slots <= length (dataSectors h))%nat ->
    0 <= r /\
    (0 < fileSize -> divRoundUp fileSize SectorSize <= r) /\
    (Bitmap.NumClear fm < r ->
     exists d', Allocate_children alloc chunk slots i fileSize h fm d = Abort d') /\
    (r <= Bitmap.NumClear fm ->
     exists h' fm' d',
       Allocate_children alloc chunk slots i fileSize h fm d = Ret (h', fm') d' /\
       Bitmap.NumClear fm' = Bitmap.NumClear fm - r /\
       length fm' = length fm /\
       (forall k : nat, fm !! k = Some true -> fm' !! k = Some true) /\
       images d' = images d).
Proof.
  intros Halloc Hchunk.
  induction slots as [| slots IH]; intros i fileSize h fm d r Hr Hi Hslots;
    simpl in Hr.
  - destruct (Z.gtb_spec fileSize 0) as [Hpos | Hnon]; [discriminate |].
    injection Hr as <-. simpl.
    destruct (Z.gtb_spec fileSize 0); [lia |].
    split; [lia |]. split; [lia |].
    split; [pose proof (NumClear_nonneg fm); lia |].
    intros _. exists h, fm, d. repeat split; auto; lia.
  - destruct (Z.gtb_spec fileSize 0) as [Hpos | Hnon].
    2:{ injection Hr as <-. simpl.
        destruct (Z.gtb_spec fileSize 0); [lia |].
        split; [lia |]. split; [lia |].
        split; [pose proof (NumClear_nonneg fm); lia |].
        intros _. exists h, fm, d. repeat split; auto; lia. }
    set (sz := if fileSize >? chunk then chunk else fileSize) in *.
    assert (Hsz : 0 < sz) by (subst sz; destruct (fileSize >? chunk); lia).
    destruct (sub sz) as [c1 |] eqn:Esub; [| discriminate].
    destruct (treeSectors_children sub chunk slots (fileSize - chunk))
      as [r1 |] eqn:Erest; [| discriminate].
    injection Hr as <-.
    destruct (Halloc sz c1 fm d Esub) as (Hc1 & _).
    pose proof (divRoundUp_pos sz Hsz) as Hns1.
    assert (Hstore : 0 <= i < Z.of_nat (length (dataSectors h))) by lia.
    pose proof (fun s => storeSector_ok h i s d Hstore) as Estore.
    set (h1 := fun s => {| numBytes := numBytes h; numSectors := numSectors h;
                           dataSectors := <[Z.to_nat i := s]> (dataSectors h) |})
      in *.
    assert (Hrec : forall s fm2 d2,
               0 <= r1 /\
               (0 < fileSize - chunk -> divRoundUp (fileSize - chunk) SectorSize <= r1) /\
               (Bitmap.NumClear fm2 < r1 ->
                exists d', Allocate_children alloc chunk slots (i + 1)
                             (fileSize - chunk) (h1 s) fm2 d2 = Abort d') /\
               (r1 <= Bitmap.NumClear fm2 ->
                exists h' fm' d',
                  Allocate_children alloc chunk slots (i + 1)
                    (fileSize - chunk) (h1 s) fm2 d2 = Ret (h', fm') d' /\
                  Bitmap.NumClear fm' = Bitmap.NumClear fm2 - r1 /\
                  length fm' = length fm2 /\
                  (forall k : nat, fm2 !! k = Some true -> fm' !! k = Some true) /\
                  images d' = images d2)).
    { intros s fm2 d2. apply IH; [exact Erest | lia |].
      subst h1; simpl. rewrite length_insert. lia. }
    destruct (Hrec 0 fm d) as (Hr1 & Hr1' & _).
    split; [lia |].
    split.
    { intros _. subst sz. destruct (Z.gtb_spec fileSize chunk) as [Hgt | Hle].
      - replace fileSize with (chunk + (fileSize - chunk)) at 1 by lia.
        pose proof (divRoundUp_add chunk (fileSize - chunk) Hchunk ltac:(lia)).
        specialize (Hr1' ltac:(lia)). lia.
      - lia. }
    rewrite Allocate_children_S by lia.
    destruct (Z.eq_dec (Bitmap.NumClear fm) 0) as [Hzero | Hsome].
    { (* no sector for the child header *)
      split; [| intros; lia].
      intros _. rewrite (FindAndSet_none fm Hzero).
      rewrite (bind_eq_Ret _ _ _ _ _ (Estore (-1))).
      eexists. apply bind_eq_Abort. reflexivity. }
    pose proof (NumClear_nonneg fm) as Hnn.
    destruct (FindAndSet_some fm) as (s & EF & Hs & Ls & _ & N1); [lia |].
    rewrite EF. rewrite (bind_eq_Ret _ _ _ _ _ (Estore s)).
    destruct (Z.geb_spec s 0); [| lia].
    rewrite (bind_eq_Ret _ _ _ _ _ (eq_refl : ASSERT true d = Ret tt d)).
    fold sz.
    destruct (Halloc sz c1 (<[Z.to_nat s := true]> fm) d Esub)
      as (_ & Hfalse & Habort & Htrue).
    destruct (Z.lt_ge_cases (Bitmap.NumClear (<[Z.to_nat s := true]> fm))
                (divRoundUp sz SectorSize)) as [Hlow | Hmid].
    { (* the child answers FALSE *)
      split; [| intros; lia].
      intros _. destruct (Hfalse Hlow) as [hf Ef].
      rewrite (bind_eq_Ret _ _ _ _ _ Ef).
      eexists. apply bind_eq_Abort. reflexivity. }
    destruct (Z.lt_ge_cases (Bitmap.NumClear (<[Z.to_nat s := true]> fm)) c1)
      as [Hlow | Hhigh].
    { (* the child stops *)
      split; [| intros; lia].
      intros _. destruct (Habort (conj Hmid Hlow)) as [d' Ea].
      exists d'. apply bind_eq_Abort. exact Ea. }
    destruct (Htrue ltac:(lia)) as (next & fm2 & d1 & Et & N2 & Len2 & Keep2 & Im2).
    rewrite (bind_eq_Ret _ _ _ _ _ Et).
    rewrite (bind_eq_Ret _ _ _ _ _ (eq_refl : ASSERT true d1 = Ret tt d1)).
    rewrite (bind_eq_Ret _ _ _ _ _
               (eq_refl : FileHeader_WriteBack next s d1 = Ret tt _)).
    match goal with
    | |- context [Allocate_children alloc chunk slots (i + 1) (fileSize - chunk)
                    ?hh fm2 ?dd] =>
        destruct (Hrec s fm2 dd) as (_ & _ & Hab & Hok)
    end.
    split.
    + intros Hlt. apply Hab. lia.
    + intros Hge. destruct Hok as (h' & fm' & d' & E & N3 & Len3 & Keep3 & Im3); [lia |].
      exists h', fm', d'. split; [exact E |].
      split; [lia |].
      split; [rewrite Len3, Len2; apply length_insert |].
      split.
      * intros k Hk. apply Keep3, Keep2.
        destruct (decide (Z.to_nat s = k)) as [<- | Hne]; [congruence |].
        rewrite list_lookup_insert_ne by exact Hne. exact Hk.
      * rewrite Im3. simpl. exact Im2.
Qed.

Hypothesis thresholds_pos : 0 < MaxFileSize /\ 0 < MaxFileSize2 /\ 0 < MaxFileSize3.

Lemma Allocate_allocatesBy fuel : allocatesBy (Allocate fuel) (treeSectors fuel).
Proof.
  destruct thresholds_pos as (T1 & T2 & T3).
  induction fuel as [| fuel IH]; intros fileSize c fm d Hc; [discriminate |].
  simpl in Hc. rewrite Allocate_S. cbv zeta.
  unfold FileHeader_new. cbn [numSectors dataSectors numBytes].
  rewrite length_replicate.
  set (h0 := {| numBytes := fileSize;
                numSectors := divRoundUp fileSize SectorSize;
                dataSectors := replicate (Z.to_nat NumDirect) (-1) |}).
  assert (Hvia : forall chunk, 0 < chunk -> chunk < fileSize ->
            treeSectors_children (treeSectors fuel) chunk (Z.to_nat NumDirect) fileSize
            = Some c ->
            divRoundUp fileSize SectorSize <= c /\
            (divRoundUp fileSize SectorSize <= Bitmap.NumClear fm < c ->
             exists d',
               (do (h, freeMap) <-
                   Allocate_children (Allocate fuel) chunk (Z.to_nat NumDirect) 0
                     fileSize h0 fm;
                ret (true, h, freeMap)) d = Abort d') /\
            (c <= Bitmap.NumClear fm ->
             exists h fm' d',
               (do (h, freeMap) <-
                   Allocate_children (Allocate fuel) chunk (Z.to_nat NumDirect) 0
                     fileSize h0 fm;
                ret (true, h, freeMap)) d = Ret (true, h, fm') d' /\
               Bitmap.NumClear fm' = Bitmap.NumClear fm - c /\
               length fm' = length fm /\
               (forall k : nat, fm !! k = Some true -> fm' !! k = Some true) /\
               images d' = images d)).
  { intros chunk Hchunk Hbig Htree.
    destruct (Allocate_children_by (Allocate fuel) (treeSectors fuel) chunk IH Hchunk
                (Z.to_nat NumDirect) 0 fileSize h0 fm d c Htree)
      as (_ & Hns & Hab & Hok); [lia | |].
    { subst h0; simpl. rewrite length_replicate. lia. }
    split; [apply Hns; lia |]. split.
    - intros [_ Hlt]. destruct (Hab Hlt) as [d' E]. exists d'.
      apply bind_eq_Abort. exact E.
    - intros Hge. destruct (Hok Hge) as (h' & fm' & d' & E & Rest).
      exists h', fm', d'. split; [| exact Rest].
      rewrite (bind_eq_Ret _ _ _ _ _ E). reflexivity. }
  destruct (Z.gtb_spec fileSize MaxFileSize3) as [H3 | H3];
    [| destruct (Z.gtb_spec fileSize MaxFileSize2) as [H2 | H2];
       [| destruct (Z.gtb_spec fileSize MaxFileSize) as [H1 | H1]]].
  1-3: match type of Hc with
       | treeSectors_children _ ?chunk _ _ = _ =>
           destruct (Hvia chunk ltac:(lia) ltac:(lia) Hc) as (Hns & Hab & Hok)
       end;
       (split; [exact Hns |]);
       (split; [intros Hlt;
                destruct (Z.ltb_spec (Bitmap.NumClear fm)
                            (divRoundUp fileSize SectorSize)); [| lia];
                exists h0; reflexivity |]);
       (split; [intros Hmid;
                destruct (Z.ltb_spec (Bitmap.NumClear fm)
                            (divRoundUp fileSize SectorSize)); [lia |];
                exact (Hab Hmid) |]);
       intros Hge;
       (destruct (Z.ltb_spec (Bitmap.NumClear fm)
                    (divRoundUp fileSize SectorSize)); [lia |]);
       exact (Hok Hge).
  (* the direct case *)
  destruct (Nat.leb_spec (Z.to_nat (divRoundUp fileSize SectorSize))
              (Z.to_nat NumDirect)) as [Hfit | Hnofit]; [| discriminate].
  injection Hc as <-.
  split; [lia |].
  split; [intros Hlt;
          destruct (Z.ltb_spec (Bitmap.NumClear fm)
                      (divRoundUp fileSize SectorSize)); [| lia];
          exists h0; reflexivity |].
  split; [intros Hmid; pose proof (NumClear_nonneg fm); lia |].
  intros Hge. pose proof (NumClear_nonneg fm).
  destruct (Z.ltb_spec (Bitmap.NumClear fm) (divRoundUp fileSize SectorSize)); [lia |].
  destruct (Allocate_direct_ok (Z.to_nat (divRoundUp fileSize SectorSize)) 0 h0 fm d)
    as (h' & fm' & E & _ & N & Len & Keep).
  - lia.
  - subst h0; simpl. rewrite length_replicate. lia.
  - lia.
  - exists h', fm', d. rewrite (bind_eq_Ret _ _ _ _ _ E).
    split; [reflexivity |]. auto.
Qed.


Lemma divRoundUp_sub a k s :
  0 < s -> 0 <= k -> 0 < a - k * s -> divRoundUp (a - k * s) s = divRoundUp a s - k.
Proof.
  intros Hs Hk Ha. unfold divRoundUp.
  rewrite !Z.quot_div_nonneg by nia.
  replace (a - k * s + s - 1) with (a + s - 1 + (- k) * s) by lia.
  rewrite Z.div_add by lia. lia.
Qed.

Lemma divRoundUp_one a s : 0 < a <= s -> divRoundUp a s = 1.
Proof. intros H. unfold divRoundUp. apply quot_between; lia. Qed.

Hypothesis NumDirect_pos : 0 < NumDirect.
Hypothesis direct_span : MaxFileSize = NumDirect * SectorSize.
Hypothesis thresholds : MaxFileSize <= MaxFileSize2 /\ MaxFileSize2 <= MaxFileSize3.

Lemma treeSectors_direct fuel sz :
  0 < sz <= MaxFileSize ->
  treeSectors (S fuel) sz = Some (divRoundUp sz SectorSize).
Proof.
  intros Hsz. destruct thresholds as [T12 T23]. simpl.
  destruct (Z.gtb_spec sz MaxFileSize3); [lia |].
  destruct (Z.gtb_spec sz MaxFileSize2); [lia |].
  destruct (Z.gtb_spec sz MaxFileSize); [lia |].
  pose proof (divRoundUp_pos sz ltac:(lia)) as Hpos.
  assert (Hle : divRoundUp sz SectorSize <= NumDirect).
  { unfold divRoundUp. rewrite Z.quot_div_nonneg by lia.
    apply Z.lt_succ_r. apply Z.div_lt_upper_bound; [lia |]. nia. }
  destruct (Nat.leb_spec (Z.to_nat (divRoundUp sz SectorSize)) (Z.to_nat NumDirect));
    [| lia].
  f_equal. lia.
Qed.

Lemma treeSectors_children_one_level fuel slots :
  forall fileSize,
    divRoundUp fileSize MaxFileSize <= Z.of_nat slots ->
    treeSectors_children (treeSectors (S fuel)) MaxFileSize slots fileSize
    = Some (if fileSize >? 0
            then divRoundUp fileSize SectorSize + divRoundUp fileSize MaxFileSize
            else 0).
Proof.
  assert (Hchunk : 0 < MaxFileSize) by nia.
  induction slots as [| slots IH]; intros fileSize Hfit;
    cbn [treeSectors_children].
  - destruct (Z.gtb_spec fileSize 0) as [Hpos | Hnon]; [| reflexivity].
    assert (0 < divRoundUp fileSize MaxFileSize).
    { unfold divRoundUp. rewrite Z.quot_div_nonneg by lia.
      apply Z.div_str_pos. lia. }
    lia.
  - destruct (Z.gtb_spec fileSize 0) as [Hpos | Hnon]; [| reflexivity].
    destruct (Z.gtb_spec fileSize MaxFileSize) as [Hgt | Hle].
    + rewrite treeSectors_direct by lia.
      assert (A1 : 0 <= 1) by lia.
      assert (A2 : 0 < fileSize - 1 * MaxFileSize) by lia.
      pose proof (divRoundUp_sub fileSize 1 MaxFileSize Hchunk A1 A2) as E1.
      replace (fileSize - 1 * MaxFileSize) with (fileSize - MaxFileSize) in E1 by lia.
      rewrite IH by lia.
      destruct (Z.gtb_spec (fileSize - MaxFileSize) 0); [| lia].
      assert (A3 : 0 <= NumDirect) by lia.
      assert (A4 : 0 < fileSize - NumDirect * SectorSize) by lia.
      pose proof (divRoundUp_sub fileSize NumDirect SectorSize SectorSize_pos A3 A4)
        as E2.
      rewrite <- direct_span in E2.
      assert (E3 : divRoundUp MaxFileSize SectorSize = NumDirect).
      { unfold divRoundUp. apply quot_between; nia. }
      f_equal. lia.
    + rewrite treeSectors_direct by lia.
      assert (Hrest : treeSectors_children (treeSectors (S fuel)) MaxFileSize slots
                        (fileSize - MaxFileSize) = Some 0).
      { destruct slots; cbn [treeSectors_children];
          (destruct (Z.gtb_spec (fileSize - MaxFileSize) 0); [lia | reflexivity]). }
      rewrite Hrest. rewrite (divRoundUp_one fileSize MaxFileSize) by lia.
      f_equal. lia.
Qed.

Lemma treeSectors_one_level fuel fileSize :
  MaxFileSize < fileSize <= MaxFileSize2 ->
  divRoundUp fileSize MaxFileSize <= NumDirect ->
  treeSectors (S (S fuel)) fileSize
  = Some (divRoundUp fileSize SectorSize + divRoundUp fileSize MaxFileSize).
Proof.
  intros Hsize Hfit. destruct thresholds as [T12 T23].
  change (treeSectors (S (S fuel)) fileSize)
    with (let slots := Z.to_nat NumDirect in
          if fileSize >? MaxFileSize3 then
            treeSectors_children (treeSectors (S fuel)) MaxFileSize3 slots fileSize
          else if fileSize >? MaxFileSize2 then
            treeSectors_children (treeSectors (S fuel)) MaxFileSize2 slots fileSize
          else if fileSize >? MaxFileSize then
            treeSectors_children (treeSectors (S fuel)) MaxFileSize slots fileSize
          else
            let n := Z.to_nat (divRoundUp fileSize SectorSize) in
            if (n <=? slots)%nat then Some (Z.of_nat n) else None).
  cbv zeta.
  destruct (Z.gtb_spec fileSize MaxFileSize3); [lia |].
  destruct (Z.gtb_spec fileSize MaxFileSize2); [lia |].
  destruct (Z.gtb_spec fileSize MaxFileSize); [| lia].
  rewrite treeSectors_children_one_level by lia.
  destruct (Z.gtb_spec fileSize 0); [reflexivity | nia].
Qed.

End TreeSizeFacts.
